(** * ml_exercises: the synthetic causal-data generator and the evaluation helpers

    Shallow embedding of [sample_data] and [test_model] (causal-model notebook)
    and of [eval_clf] (hard-drive-failure notebook).

    - float64 values are IEEE 754 binary64 numbers as specified by the
      standard library's [SpecFloat]; equality of two values is equality of
      their sign, mantissa and exponent.
    - Python code runs in a state-and-exception monad over a [world] that
      holds numpy's process-wide generator, the standard output and the
      objects the caller passes by reference.
    - numpy, pandas and scikit-learn are collaborators: the pseudo-random
      generator, the number formatter, the metric and the estimators are
      parameters; what the notebooks rely on (argument checks, shapes) is
      written out. *)

From Stdlib Require Import ZArith String List Bool Lia SpecFloat.
Import ListNotations.
Open Scope Z_scope.

(** * float64 *)

Module Float64.

Definition prec : Z := 53.
Definition emax : Z := 1024.

Definition float64 : Type := spec_float.

Definition fadd : float64 -> float64 -> float64 := SFadd prec emax.
Definition fsub : float64 -> float64 -> float64 := SFsub prec emax.
Definition fmul : float64 -> float64 -> float64 := SFmul prec emax.
Definition fdiv : float64 -> float64 -> float64 := SFdiv prec emax.
Definition fopp : float64 -> float64 := SFopp.

(** A Python int converted to float64 (round to nearest, ties to even). *)
Definition of_int (z : Z) : float64 := binary_normalize prec emax z 0 false.

(** [np.isfinite]: neither NaN nor an infinity. *)
Definition isfinite (x : float64) : bool :=
  match x with
  | S754_zero _ | S754_finite _ _ _ => true
  | S754_infinity _ | S754_nan => false
  end.

(** [below k x]: [x] is finite and [|x| < 2^k]. *)
Definition below (k : Z) (x : float64) : bool :=
  match x with
  | S754_zero _ => true
  | S754_finite _ m e => Zpos (digits2_pos m) + e <=? k
  | S754_infinity _ | S754_nan => false
  end.

Definition all_below (k : Z) (l : list float64) : Prop :=
  Forall (fun x => below k x = true) l.

(** The numeric literals of [sample_data] as binary64 values: [0.1], [0.2],
    [0.5], [0.8], [1.0], [2] (also [2.0]), [-2], [3]; and [10]. *)
Definition f0_1 : float64 := S754_finite false 7205759403792794 (-56).
Definition f0_2 : float64 := S754_finite false 7205759403792794 (-55).
Definition f0_5 : float64 := S754_finite false 4503599627370496 (-53).
Definition f0_8 : float64 := S754_finite false 7205759403792794 (-53).
Definition f1_0 : float64 := S754_finite false 4503599627370496 (-52).
Definition f2 : float64 := S754_finite false 4503599627370496 (-51).
Definition fneg2 : float64 := S754_finite true 4503599627370496 (-51).
Definition f3 : float64 := S754_finite false 6755399441055744 (-51).
Definition f10 : float64 := S754_finite false 5629499534213120 (-49).

End Float64.
Export Float64.

(** * The Python runtime *)

Inductive exn : Type :=
| ValueError
| TypeError
| KeyError
| IndexError.

(** The legacy generator behind [np.random.seed] and [np.random.randn].
    [rs_seed s] is its state after seeding with an accepted integer [s],
    [rs_entropy k] its state after the [k]-th seeding from operating-system
    entropy ([seed=None]), [rs_gauss] one standard-normal draw. *)
Record RandomState : Type := {
  rs_state : Type;
  rs_seed : Z -> rs_state;
  rs_entropy : nat -> rs_state;
  rs_gauss : rs_state -> float64 * rs_state
}.

(** [pd.DataFrame] with the default integer index: column labels and rows. *)
Record DataFrame : Type := {
  df_columns : list string;
  df_values : list (list float64)
}.

(** A two-dimensional [ndarray] of float64. *)
Record ndarray2 : Type := {
  shape : nat * nat;
  rows : list (list float64)
}.

Section Runtime.
Context {R : RandomState} {Obj : Type}.

(** Objects the caller holds and passes by reference: feature matrices,
    label vectors, data frames, and instances of library classes. *)
Inductive pyobj : Type :=
| Features (x : list (list float64))
| Labels (y : list Z)
| Frame (df : DataFrame)
| Instance (o : Obj).

Definition ref : Type := nat.

Record world : Type := {
  np_random : rs_state R;
  os_reads : nat;
  stdout : list string;
  heap : list pyobj
}.

Definition set_np_random (g : rs_state R) (w : world) : world :=
  {| np_random := g; os_reads := os_reads w;
     stdout := stdout w; heap := heap w |}.

(** A computation returns a value or raises; the state reached when an
    exception propagates is kept. *)
Definition M (A : Type) : Type := world -> (exn + A) * world.

Definition ret {A} (a : A) : M A := fun w => (inr a, w).

Definition raise {A} (e : exn) : M A := fun w => (inl e, w).

Definition bind {A B} (c : M A) (k : A -> M B) : M B :=
  fun w => match c w with
           | (inr a, w') => k a w'
           | (inl e, w') => (inl e, w')
           end.

Definition emit (line : string) (w : world) : world :=
  {| np_random := np_random w; os_reads := os_reads w;
     stdout := stdout w ++ [line]; heap := heap w |}.

Definition print (line : string) : M unit := fun w => (inr tt, emit line w).

Definition load (r : ref) : M pyobj :=
  fun w => match nth_error (heap w) r with
           | Some o => (inr o, w)
           | None => (inl TypeError, w)
           end.

End Runtime.

Arguments pyobj : clear implicits.
Arguments world : clear implicits.
Arguments M : clear implicits.

Declare Scope py_scope.
Delimit Scope py_scope with py.
Notation "x <- c ;; k" := (bind c (fun x => k))
  (at level 100, c at next level, right associativity) : py_scope.
Notation "c ;; k" := (bind c (fun _ => k))
  (at level 100, right associativity) : py_scope.
Open Scope py_scope.

(** * numpy and pandas, as far as the notebooks use them *)

Section Numpy.
Context {R : RandomState} {Obj : Type}.

(** [np.random.seed(seed)]: [None] reseeds from OS entropy, an integer must
    lie in [0, 2**32 - 1]. *)
Definition np_random_seed (seed : option Z) : M R Obj unit :=
  fun w =>
    match seed with
    | None =>
        (inr tt, {| np_random := rs_entropy R (os_reads w);
                    os_reads := S (os_reads w);
                    stdout := stdout w; heap := heap w |})
    | Some s =>
        if (0 <=? s) && (s <? 2 ^ 32)
        then (inr tt, set_np_random (rs_seed R s) w)
        else (inl ValueError, w)
    end.

(** [k] successive draws starting from the generator state [g]. *)
Fixpoint draws (k : nat) (g : rs_state R) : list float64 * rs_state R :=
  match k with
  | O => ([], g)
  | S k' =>
      let (x, g1) := rs_gauss R g in
      let (xs, g2) := draws k' g1 in
      (x :: xs, g2)
  end.

(** [np.random.randn(n)]: a negative dimension is rejected. *)
Definition randn (n : Z) : M R Obj (list float64) :=
  fun w =>
    if n <? 0 then (inl ValueError, w)
    else
      let (xs, g) := draws (Z.to_nat n) (np_random w) in
      (inr xs, set_np_random g w).

(** scalar * array *)
Definition smul (c : float64) (a : list float64) : list float64 :=
  map (fmul c) a.

Fixpoint map2 (f : float64 -> float64 -> float64) (a b : list float64)
  : list float64 :=
  match a, b with
  | x :: a', y :: b' => f x y :: map2 f a' b'
  | _, _ => []
  end.

(** array (op) array on one-dimensional operands: equal lengths combine
    element by element, a length-1 operand is broadcast, any other pair of
    lengths is an error. *)
Definition broadcast2 (f : float64 -> float64 -> float64)
  (a b : list float64) : M R Obj (list float64) :=
  if (length a =? length b)%nat then ret (map2 f a b)
  else match a, b with
       | [x], _ => ret (map (f x) b)
       | _, [y] => ret (map (fun x => f x y) a)
       | _, _ => raise ValueError
       end.

Definition arr_add : list float64 -> list float64 -> M R Obj (list float64) :=
  broadcast2 fadd.

Definition arr_sub : list float64 -> list float64 -> M R Obj (list float64) :=
  broadcast2 fsub.

(** [np.vstack(arrs)] on one-dimensional arrays. *)
Definition vstack (arrs : list (list float64)) : M R Obj ndarray2 :=
  match arrs with
  | [] => raise ValueError
  | a :: rest =>
      if forallb (fun b => (length b =? length a)%nat) rest
      then ret {| shape := (length arrs, length a); rows := arrs |}
      else raise ValueError
  end.

(** [a.T] *)
Definition T (a : ndarray2) : ndarray2 :=
  {| shape := (snd (shape a), fst (shape a));
     rows := map (fun j => map (fun r => nth j r (S754_zero false)) (rows a))
                 (seq 0 (snd (shape a))) |}.

(** [pd.DataFrame(data, columns=columns)] *)
Definition pd_DataFrame (data : ndarray2) (columns : list string)
  : M R Obj DataFrame :=
  if (snd (shape data) =? length columns)%nat
  then ret {| df_columns := columns; df_values := rows data |}
  else raise ValueError.

Fixpoint index_of (name : string) (columns : list string) : option nat :=
  match columns with
  | [] => None
  | c :: rest =>
      if String.eqb c name then Some O
      else option_map S (index_of name rest)
  end.

Fixpoint indices_of (names columns : list string) : option (list nat) :=
  match names with
  | [] => Some []
  | x :: rest =>
      match index_of x columns, indices_of rest columns with
      | Some i, Some l => Some (i :: l)
      | _, _ => None
      end
  end.

(** [df[names]] for the data frame stored at [df]: a new frame.  Each name
    selects the column that carries it; this is pandas' selection on frames
    whose labels are distinct (for a label carried by several columns pandas
    returns all of them, which is not modelled). *)
Definition getitem (df : ref) (names : list string) : M R Obj DataFrame :=
  o <- load df ;;
  match o with
  | Frame d =>
      match indices_of names (df_columns d) with
      | Some idx =>
          ret {| df_columns := names;
                 df_values :=
                   map (fun row => map (fun j => nth j row (S754_zero false)) idx)
                       (df_values d) |}
      | None => raise KeyError
      end
  | _ => raise TypeError
  end.

Definition subscript {A} (l : list A) (i : nat) : M R Obj A :=
  match nth_error l i with
  | Some x => ret x
  | None => raise IndexError
  end.

Fixpoint for_each {A B} (f : A -> M R Obj B) (l : list A) : M R Obj (list B) :=
  match l with
  | [] => ret []
  | x :: rest => y <- f x ;; ys <- for_each f rest ;; ret (y :: ys)
  end.

End Numpy.

(** * The causal-model notebook *)

Section CausalNotebook.
Context {R : RandomState} {Obj : Type}.

(** [sample_data(seed=None, n=10000, data_drift=False, concept_drift=False)]:
    a sample from the distribution entailed by the causal graph.  Each
    assignment of the source is one line; in a sum the left operand is
    evaluated before the draw on its right. *)
Definition sample_data (seed : option Z) (n : Z)
  (data_drift concept_drift : bool) : M R Obj DataFrame :=
  np_random_seed seed ;;
  (* C, A, K *)
  C <- randn n ;;
  r <- randn n ;; let A := smul f0_8 r in
  r <- randn n ;; K <- arr_add A (smul f0_1 r) ;;
  (* X with and without data drift *)
  X <- (if data_drift then
          t <- arr_sub C (smul f2 A) ;; r <- randn n ;; arr_add t (smul f2 r)
        else
          t <- arr_sub C (smul f2 A) ;; r <- randn n ;; arr_add t (smul f0_2 r)) ;;
  (* F *)
  r <- randn n ;; F <- arr_add (smul f3 X) (smul f0_8 r) ;;
  (* D with and without concept drift *)
  D <- (if concept_drift then
          r <- randn n ;; arr_add (smul f2 X) (smul f0_5 r)
        else
          r <- randn n ;; arr_add (smul fneg2 X) (smul f0_5 r)) ;;
  (* G, Y *)
  r <- randn n ;; G <- arr_add D (smul f0_5 r) ;;
  t <- arr_sub (smul f2 K) D ;; r <- randn n ;; Y <- arr_add t (smul f0_2 r) ;;
  (* H with and without data drift *)
  H <- (if data_drift then
          r <- randn n ;; arr_add (smul f0_5 Y) (smul f1_0 r)
        else
          r <- randn n ;; arr_add (smul f0_5 Y) (smul f0_1 r)) ;;
  a <- vstack [C; A; K; X; F; D; G; Y; H] ;;
  df <- pd_DataFrame (T a) ["C"; "A"; "K"; "X"; "F"; "D"; "G"; "Y"; "H"]%string ;;
  ret df.

(** [sklearn.linear_model.LinearRegression]: the class is a collaborator;
    [lr_fit] is [LinearRegression().fit(X, y)], which returns the fitted
    object. *)
Record regressor : Type := {
  lr_model : Type;
  lr_fit : DataFrame -> DataFrame -> M R Obj lr_model;
  lr_score : lr_model -> DataFrame -> DataFrame -> M R Obj float64;
  intercept_ : lr_model -> list float64;
  coef_ : lr_model -> list (list float64)
}.

Variable format_3f : float64 -> string.
Variable LinearRegression : regressor.

(** [test_model(input_vars, df_train, df_test)]: fit a linear model of Y on
    the given columns, then print its R^2 on both frames, its intercept and
    its coefficients. *)
Definition test_model (input_vars : list string) (df_train df_test : ref)
  : M R Obj unit :=
  X <- getitem df_train input_vars ;;
  y <- getitem df_train ["Y"%string] ;;
  lm <- lr_fit LinearRegression X y ;;
  X <- getitem df_train input_vars ;;
  y <- getitem df_train ["Y"%string] ;;
  r2_train <- lr_score LinearRegression lm X y ;;
  X <- getitem df_test input_vars ;;
  y <- getitem df_test ["Y"%string] ;;
  r2_test <- lr_score LinearRegression lm X y ;;
  b <- subscript (intercept_ LinearRegression lm) 0 ;;
  terms <- for_each
             (fun i =>
                row <- subscript (coef_ LinearRegression lm) 0 ;;
                c <- subscript row i ;;
                v <- subscript input_vars i ;;
                ret (format_3f c ++ " * " ++ v)%string)
             (seq 0 (length input_vars)) ;;
  print ("R^2 (train): " ++ format_3f r2_train ++ "; (test): "
         ++ format_3f r2_test ++ " => Y ~ " ++ format_3f b ++ " + "
         ++ String.concat " + " terms)%string.

End CausalNotebook.

(** * The hard-drive-failure notebook *)

Section DriveNotebook.
Context {R : RandomState} {Obj : Type}.

(** The bound methods of a scikit-learn classifier object [clf]. *)
Record estimator : Type := {
  est_fit : ref -> ref -> M R Obj unit;
  est_score : ref -> ref -> M R Obj float64;
  est_predict : ref -> M R Obj (list Z)
}.

Variable format_3f : float64 -> string.

(** The value [sklearn.metrics.balanced_accuracy_score] computes once its
    arguments passed validation: the unweighted mean of per-class recall. *)
Variable mean_recall : list Z -> list Z -> float64.

(** [balanced_accuracy_score(y_true, y_pred)]: the two label vectors must
    have the same number of samples. *)
Definition balanced_accuracy_score (y_true : ref) (y_pred : list Z)
  : M R Obj float64 :=
  o <- load y_true ;;
  match o with
  | Labels y =>
      if (length y =? length y_pred)%nat then ret (mean_recall y y_pred)
      else raise ValueError
  | Features _ => raise ValueError
  | _ => raise TypeError
  end.

(** [eval_clf(clf, X_train, y_train, X_test, y_test)]: print accuracy and
    balanced accuracy of a trained classifier on both splits. *)
Definition eval_clf (clf : estimator) (X_train y_train X_test y_test : ref)
  : M R Obj unit :=
  s <- est_score clf X_train y_train ;;
  print ("Accuracy on training data: " ++ format_3f s)%string ;;
  s <- est_score clf X_test y_test ;;
  print ("Accuracy on test data: " ++ format_3f s)%string ;;
  p <- est_predict clf X_train ;;
  b <- balanced_accuracy_score y_train p ;;
  print ("Balanced accuracy on training data: " ++ format_3f b)%string ;;
  p <- est_predict clf X_test ;;
  b <- balanced_accuracy_score y_test p ;;
  print ("Balanced accuracy on test data: " ++ format_3f b)%string.

End DriveNotebook.

(** * What the collaborators promise

    [only_prints w w']: the state [w'] differs from [w] at most by lines
    appended to the standard output. *)

Section Contracts.
Context {R : RandomState} {Obj : Type}.

Definition only_prints (w w' : world R Obj) : Prop :=
  np_random w' = np_random w /\
  os_reads w' = os_reads w /\
  heap w' = heap w /\
  exists lines, stdout w' = stdout w ++ lines.

Definition quiet {A} (c : M R Obj A) : Prop :=
  forall w, only_prints w (snd (c w)).

Definition read_only {A} (c : M R Obj A) : Prop :=
  forall w, snd (c w) = w.

(** [score] and [predict] of a fitted estimator inspect their arguments and
    the estimator, and change nothing. *)
Definition read_only_classifier (clf : @estimator R Obj) : Prop :=
  (forall X y, read_only (est_score clf X y)) /\
  (forall X, read_only (est_predict clf X)).

(** The scikit-learn conventions [eval_clf] relies on: [score] and
    [predict] are read-only, they report unusable input as ValueError, and
    [predict] returns one label for each row of the feature matrix. *)
Record sklearn_classifier (clf : @estimator R Obj) : Prop := {
  methods_read_only : read_only_classifier clf;
  score_raises : forall X y w e,
    fst (est_score clf X y w) = inl e -> e = ValueError;
  predict_raises : forall X w e,
    fst (est_predict clf X w) = inl e -> e = ValueError;
  predict_rows : forall X w p,
    fst (est_predict clf X w) = inr p ->
    exists x, nth_error (heap w) X = Some (Features x) /\ length p = length x
}.

(** [fit] and [score] of a regressor work on the frames they are given and
    change nothing the caller holds. *)
Definition read_only_regressor (lr : @regressor R Obj) : Prop :=
  (forall X y, read_only (lr_fit lr X y)) /\
  (forall m X y, read_only (lr_score lr m X y)).

End Contracts.

(** * The generating equations, column by column

    The nine assignments of [sample_data] read as structural equations: the
    value of a column in a row is a function of the values of earlier columns
    in that row and of the column's own noise draw.  The drift flags select
    three constants. *)

Inductive column : Type := cC | cA | cK | cX | cF | cD | cG | cY | cH.

Definition position (c : column) : nat :=
  match c with
  | cC => 0 | cA => 1 | cK => 2 | cX => 3 | cF => 4
  | cD => 5 | cG => 6 | cY => 7 | cH => 8
  end%nat.

Definition column_name (c : column) : string :=
  match c with
  | cC => "C" | cA => "A" | cK => "K" | cX => "X" | cF => "F"
  | cD => "D" | cG => "G" | cY => "Y" | cH => "H"
  end.

Definition all_columns : list column := [cC; cA; cK; cX; cF; cD; cG; cY; cH].

(** The columns an equation reads. *)
Definition parents (c : column) : list column :=
  match c with
  | cC => []
  | cA => []
  | cK => [cA]
  | cX => [cC; cA]
  | cF => [cX]
  | cD => [cX]
  | cG => [cD]
  | cY => [cK; cD]
  | cH => [cY]
  end.

Record presets : Type := {
  noise_X : float64;
  coef_D : float64;
  noise_H : float64
}.

Definition presets_of (data_drift concept_drift : bool) : presets :=
  {| noise_X := if data_drift then f2 else f0_2;
     coef_D := if concept_drift then f2 else fneg2;
     noise_H := if data_drift then f1_0 else f0_1 |}.

Definition equation (p : presets) (c : column) (v : column -> float64)
  (z : float64) : float64 :=
  match c with
  | cC => z
  | cA => fmul f0_8 z
  | cK => fadd (v cA) (fmul f0_1 z)
  | cX => fadd (fsub (v cC) (fmul f2 (v cA))) (fmul (noise_X p) z)
  | cF => fadd (fmul f3 (v cX)) (fmul f0_8 z)
  | cD => fadd (fmul (coef_D p) (v cX)) (fmul f0_5 z)
  | cG => fadd (v cD) (fmul f0_5 z)
  | cY => fadd (fsub (fmul f2 (v cK)) (v cD)) (fmul f0_2 z)
  | cH => fadd (fmul f0_5 (v cY)) (fmul (noise_H p) z)
  end.

(** The same equations on whole columns; [N i] is the [i]-th noise vector. *)
Definition columns_of (p : presets) (N : nat -> list float64)
  : list (list float64) :=
  let C := N 0%nat in
  let A := smul f0_8 (N 1%nat) in
  let K := map2 fadd A (smul f0_1 (N 2%nat)) in
  let X := map2 fadd (map2 fsub C (smul f2 A)) (smul (noise_X p) (N 3%nat)) in
  let F := map2 fadd (smul f3 X) (smul f0_8 (N 4%nat)) in
  let D := map2 fadd (smul (coef_D p) X) (smul f0_5 (N 5%nat)) in
  let G := map2 fadd D (smul f0_5 (N 6%nat)) in
  let Y := map2 fadd (map2 fsub (smul f2 K) D) (smul f0_2 (N 7%nat)) in
  let H := map2 fadd (smul f0_5 Y) (smul (noise_H p) (N 8%nat)) in
  [C; A; K; X; F; D; G; Y; H].

Definition cell (df : DataFrame) (r : nat) (c : column) : float64 :=
  nth (position c) (nth r (df_values df) []) (S754_zero false).

(** The values of one column, top to bottom. *)
Definition column_values (df : DataFrame) (c : column) : list float64 :=
  map (fun row => nth (position c) row (S754_zero false)) (df_values df).

(** The table [sample_data] assembles from nine columns of length [m]. *)
Definition frame_of (m : nat) (cols : list (list float64)) : DataFrame :=
  {| df_columns := map column_name all_columns;
     df_values := rows (T {| shape := (9%nat, m); rows := cols |}) |}.

(** The seeds [np.random.seed] accepts: [None], or an integer in
    [0, 2**32 - 1]. *)
Definition accepted (seed : option Z) : Prop :=
  match seed with
  | Some s => 0 <= s < 2 ^ 32
  | None => True
  end.

Definition acceptedb (seed : option Z) : bool :=
  match seed with
  | Some s => (0 <=? s) && (s <? 2 ^ 32)
  | None => true
  end.

Section Noise.
Context {R : RandomState}.

(** The generator state [sample_data] starts drawing from. *)
Definition seeded (seed : option Z) (reads : nat) : rs_state R :=
  match seed with
  | Some s => rs_seed R s
  | None => rs_entropy R reads
  end.

(** The [i]-th vector of [n] draws after [g]. *)
Definition block (g : rs_state R) (n i : nat) : list float64 :=
  fst (draws n (snd (draws (i * n) g))).

(** The draw behind row [r] of column [c]: number [position c * n + r] of
    the stream that starts at [g]. *)
Definition noise (g : rs_state R) (n : nat) (c : column) (r : nat) : float64 :=
  nth (position c * n + r) (fst (draws (9 * n) g)) (S754_zero false).

(** [df] is the table the equations with constants [p] produce from the
    stream that starts at [g]. *)
Definition generated_by (p : presets) (g : rs_state R) (n : nat)
  (df : DataFrame) : Prop :=
  df_columns df = map column_name all_columns /\
  length (df_values df) = n /\
  Forall (fun row => length row = 9%nat) (df_values df) /\
  forall r c, (r < n)%nat ->
    cell df r c = equation p c (cell df r) (noise g n c r).

End Noise.

(** * Instances on which the model runs *)

(** A linear congruential stand-in for numpy's generator; its draws
    alternate between two fixed values. *)
Definition lcg : RandomState :=
  {| rs_state := Z;
     rs_seed := fun s => s;
     rs_entropy := fun k => 2 ^ 32 + Z.of_nat k;
     rs_gauss := fun g =>
       (if Z.even g then f0_5 else fneg2, (1103515245 * g + 12345) mod 2 ^ 31) |}.

(** A stand-in for Python's [:.3f] formatting that keeps the sign and the
    class of the value and elides the digits. *)
Definition fixed_3f (x : float64) : string :=
  match x with
  | S754_zero _ => "0.000"
  | S754_finite s _ _ => if s then "-#.###" else "#.###"
  | S754_infinity s => if s then "-inf" else "inf"
  | S754_nan => "nan"
  end.

Section Instances.
Context {R : RandomState}.

Definition store (r : ref) (o : pyobj Z) : M R Z unit :=
  fun w =>
    if (r <? length (heap w))%nat
    then (inr tt, {| np_random := np_random w; os_reads := os_reads w;
                     stdout := stdout w;
                     heap := firstn r (heap w) ++ o :: skipn (S r) (heap w) |})
    else (inl TypeError, w).

Definition count_eq (a b : list Z) : Z :=
  Z.of_nat (length (filter (fun xy => fst xy =? snd xy) (combine a b))).

(** [sklearn.metrics.accuracy_score] on validated arguments. *)
Definition accuracy (y p : list Z) : float64 :=
  fdiv (of_int (count_eq y p)) (of_int (Z.of_nat (length y))).

Definition occurrences (y : list Z) (c : Z) : nat :=
  length (filter (Z.eqb c) y).

(** The most frequent label; the smallest one among equally frequent. *)
Definition most_frequent (y : list Z) : Z :=
  fold_left
    (fun best c =>
       if (occurrences y best <? occurrences y c)%nat then c
       else if (occurrences y best =? occurrences y c)%nat && (c <? best)
            then c else best)
    y (hd 0 y).

(** Recall of class [c]: the share of the samples labelled [c] that are
    predicted [c]. *)
Definition recall (y p : list Z) (c : Z) : float64 :=
  fdiv (of_int (Z.of_nat (length (filter (fun yp => (fst yp =? c) && (snd yp =? c))
                                         (combine y p)))))
       (of_int (Z.of_nat (occurrences y c))).

(** The unweighted mean of the recall of every class that occurs in [y]. *)
Definition per_class_recall_mean (y p : list Z) : float64 :=
  let classes := nodup Z.eq_dec y in
  fdiv (fold_left (fun acc c => fadd acc (recall y p c)) classes (S754_zero false))
       (of_int (Z.of_nat (length classes))).

(** [DummyClassifier(strategy="most_frequent")] whose learnt class is kept
    in the instance stored at [self]. *)
Definition dummy_fit (self X y : ref) : M R Z unit :=
  ox <- load X ;;
  oy <- load y ;;
  match ox, oy with
  | Features x, Labels l =>
      if (length x =? length l)%nat
      then store self (Instance (most_frequent l))
      else raise ValueError
  | _, _ => raise ValueError
  end.

Definition dummy_predict (self X : ref) : M R Z (list Z) :=
  fun w =>
    match nth_error (heap w) self, nth_error (heap w) X with
    | Some (Instance c), Some (Features x) => (inr (repeat c (length x)), w)
    | _, _ => (inl ValueError, w)
    end.

Definition dummy_score (self X y : ref) : M R Z float64 :=
  p <- dummy_predict self X ;;
  fun w =>
    match nth_error (heap w) y with
    | Some (Labels l) =>
        if (length l =? length p)%nat then (inr (accuracy l p), w)
        else (inl ValueError, w)
    | _ => (inl ValueError, w)
    end.

Definition DummyClassifier (self : ref) : @estimator R Z :=
  {| est_fit := dummy_fit self;
     est_score := dummy_score self;
     est_predict := dummy_predict self |}.

(** An object with the three methods that does not follow scikit-learn's
    conventions: it answers with the labels [memo] it has memorised,
    whatever features it is given, and scores them against the labels it is
    given without comparing lengths. *)
Definition memo_score (memo : list Z) (X y : ref) : M R Z float64 :=
  fun w =>
    match nth_error (heap w) y with
    | Some (Labels l) => (inr (accuracy l memo), w)
    | _ => (inl ValueError, w)
    end.

Definition MemoClassifier (memo : list Z) : @estimator R Z :=
  {| est_fit := fun _ _ => ret tt;
     est_score := memo_score memo;
     est_predict := fun _ => ret memo |}.

(** A regressor that predicts zero: all coefficients and the intercept are
    zero, and so is its score. *)
Definition zero_fit (X y : DataFrame) : M R Z (list float64) :=
  if (length (df_values X) =? length (df_values y))%nat
  then ret (repeat (S754_zero false) (length (df_columns X)))
  else raise ValueError.

Definition ZeroRegressor : @regressor R Z :=
  {| lr_model := list float64;
     lr_fit := zero_fit;
     lr_score := fun _ _ _ => ret (S754_zero false);
     intercept_ := fun _ => [S754_zero false];
     coef_ := fun m => [m] |}.

(** The same regressor with a [fit] that rejects every input. *)
Definition RejectingRegressor : @regressor R Z :=
  {| lr_model := list float64;
     lr_fit := fun _ _ => raise ValueError;
     lr_score := fun _ _ _ => ret (S754_zero false);
     intercept_ := fun _ => [S754_zero false];
     coef_ := fun m => [m] |}.

End Instances.

(** Two tiny tables and a notebook state holding them. *)
Definition tiny_frame : DataFrame :=
  {| df_columns := ["X"; "Y"]%string;
     df_values := [[f1_0; f2]; [f2; f3]] |}.

Definition notebook0 : world lcg Z :=
  {| np_random := (0 : rs_state lcg);
     os_reads := 0;
     stdout := [];
     heap := [Instance 0; Features [[f1_0]; [f2]; [f3]]; Labels [0; 1; 0];
              Labels [0; 1]; Frame tiny_frame] |}.

(** * The cells around the helpers *)

Section NotebookCells.
Context {R : RandomState} {Obj : Type}.

(** [df.columns] *)
Definition dot_columns (df : ref) : M R Obj (list string) :=
  o <- load df ;;
  match o with
  | Frame d => ret (df_columns d)
  | _ => raise TypeError
  end.

(** [df[name].to_numpy()] for one label [name]: the values of that column,
    on a frame whose labels are distinct. *)
Definition getitem_series (df : ref) (name : string) : M R Obj (list float64) :=
  o <- load df ;;
  match o with
  | Frame d =>
      match index_of name (df_columns d) with
      | Some j => ret (map (fun row => nth j row (S754_zero false)) (df_values d))
      | None => raise KeyError
      end
  | _ => raise TypeError
  end.

(** [[c for c in columns if c.startswith("smart")]] *)
Definition feat_cols (columns : list string) : list string :=
  filter (String.prefix "smart") columns.

(** The cell that builds the learning problem of the drive notebook, up to
    the split: the SMART statistics as features, ["failure"] as target.
      feat_cols = [c for c in df.columns if c.startswith("smart")]
      X = df[feat_cols].to_numpy()
      y = df["failure"].to_numpy()
    The selections are those of a frame with distinct labels, as
    [pd.read_csv] delivers it. *)
Definition features_and_target (df : ref)
  : M R Obj (list (list float64) * list float64) :=
  columns <- dot_columns df ;;
  let feat_cols := feat_cols columns in
  Xf <- getitem df feat_cols ;;
  let X := df_values Xf in
  y <- getitem_series df "failure" ;;
  ret (X, y).

(** [sklearn.linear_model.LassoLars(alpha=0.003)], fitted on a frame and a
    one-dimensional target: the intercept is a number, the coefficients are
    a vector. *)
Record lars : Type := {
  lars_model : Type;
  lars_fit : DataFrame -> list float64 -> M R Obj lars_model;
  lars_score : lars_model -> DataFrame -> list float64 -> M R Obj float64;
  lars_intercept_ : lars_model -> float64;
  lars_coef_ : lars_model -> list float64
}.

Variable format_3f : float64 -> string.
Variable LassoLars : lars.

(** [[c for c in columns if c != "Y"]] *)
Definition all_but_Y (columns : list string) : list string :=
  filter (fun c => negb (String.eqb c "Y")) columns.

(** The cell "(5) regularized model with all inputs" of the causal notebook:
      input_vars = [c for c in df_train.columns if c != "Y"]
      lm = LassoLars(alpha=0.003).fit(df_train[input_vars], df_train["Y"])
      print(f"R^2 (train): {lm.score(...)} ... ") *)
Definition lasso_cell (df_train df_test : ref) : M R Obj unit :=
  columns <- dot_columns df_train ;;
  let input_vars := all_but_Y columns in
  X <- getitem df_train input_vars ;;
  y <- getitem_series df_train "Y" ;;
  lm <- lars_fit LassoLars X y ;;
  X <- getitem df_train input_vars ;;
  y <- getitem_series df_train "Y" ;;
  r2_train <- lars_score LassoLars lm X y ;;
  X <- getitem df_test input_vars ;;
  y <- getitem_series df_test "Y" ;;
  r2_test <- lars_score LassoLars lm X y ;;
  terms <- for_each
             (fun i =>
                c <- subscript (lars_coef_ LassoLars lm) i ;;
                v <- subscript input_vars i ;;
                ret (format_3f c ++ " * " ++ v)%string)
             (seq 0 (length input_vars)) ;;
  print ("R^2 (train): " ++ format_3f r2_train ++ "; (test): "
         ++ format_3f r2_test ++ " => Y ~ "
         ++ format_3f (lars_intercept_ LassoLars lm) ++ " + "
         ++ String.concat " + " terms)%string.

End NotebookCells.

(** [fit] and [score] of the Lasso regressor change nothing the caller
    holds. *)
Definition read_only_lars {R : RandomState} {Obj : Type} (lr : @lars R Obj)
  : Prop :=
  (forall X y, read_only (lars_fit lr X y)) /\
  (forall m X y, read_only (lars_score lr m X y)).

(** The columns [names] of a frame, row by row: what [df[names]] holds when
    [idx] are the positions of [names]. *)
Definition take_columns (names : list string) (idx : list nat) (d : DataFrame)
  : DataFrame :=
  {| df_columns := names;
     df_values := map (fun row => map (fun j => nth j row (S754_zero false)) idx)
                      (df_values d) |}.

(** A Lasso stand-in whose model is the zero vector. *)
Definition ZeroLars {R : RandomState} : @lars R Z :=
  {| lars_model := list float64;
     lars_fit := fun X y =>
       if (length (df_values X) =? length y)%nat
       then ret (repeat (S754_zero false) (length (df_columns X)))
       else raise ValueError;
     lars_score := fun _ _ _ => ret (S754_zero false);
     lars_intercept_ := fun _ => S754_zero false;
     lars_coef_ := fun m => m |}.

(** Two generated tables and a drive table, held by a notebook. *)
Definition generated_frame (seed n : Z) : DataFrame :=
  match fst (sample_data (Some seed) n false false notebook0) with
  | inr df => df
  | inl _ => tiny_frame
  end.

Definition drive_frame : DataFrame :=
  {| df_columns := ["serial"; "smart_5"; "failure"; "smart_187"]%string;
     df_values := [[f1_0; f2; S754_zero false; f3];
                   [f2; f0_5; f1_0; f0_1]] |}.

Definition notebook1 : world lcg Z :=
  {| np_random := (0 : rs_state lcg);
     os_reads := 0;
     stdout := [];
     heap := [Frame (generated_frame 1 2); Frame (generated_frame 2 3);
              Frame drive_frame] |}.

(** * Magnitude bounds for binary64 arithmetic

    Rounding a value of magnitude below [2^K] gives a finite result of
    magnitude below [2^(K+1)], as long as [K] stays away from the overflow
    threshold; sums, differences and products of bounded operands are
    therefore finite. *)

Section FloatBounds.

Lemma digits2_pos_size (p : positive) : digits2_pos p = Pos.size p.
Proof. induction p as [p IH | p IH |]; cbn; congruence. Qed.

Lemma digits2_pos_log2 (p : positive) :
  Zpos (digits2_pos p) = Z.succ (Z.log2 (Zpos p)).
Proof.
  rewrite digits2_pos_size.
  destruct p; cbn [Pos.size Z.log2]; rewrite ?Pos2Z.inj_succ; reflexivity.
Qed.

Lemma Zdigits2_pos_lt (p : positive) (d : Z) :
  Zpos (digits2_pos p) <= d <-> Zpos p < 2 ^ d.
Proof.
  rewrite digits2_pos_log2.
  destruct (Z_lt_le_dec d 0) as [Hd | Hd].
  - split; intro H.
    + pose proof (Z.log2_nonneg (Zpos p)). lia.
    + rewrite Z.pow_neg_r in H by assumption. lia.
  - rewrite (Z.log2_lt_pow2 (Zpos p) d) by lia. lia.
Qed.

Lemma iter_pos_Pos_iter {A} (f : A -> A) (p : positive) (x : A) :
  iter_pos f p x = Pos.iter f x p.
Proof.
  revert x. induction p as [p IH | p IH |]; intro x; cbn [iter_pos Pos.iter].
  - rewrite !IH, !Pos.iter_swap. reflexivity.
  - rewrite !IH. reflexivity.
  - reflexivity.
Qed.

Lemma shr_1_m (mrs : shr_record) :
  0 <= shr_m mrs -> shr_m (shr_1 mrs) = Z.div2 (shr_m mrs).
Proof.
  destruct mrs as [m r s]. cbn [shr_m]. intro Hm.
  destruct m as [| [p | p |] | p]; try reflexivity; lia.
Qed.

Lemma shr_iter_m (p : positive) (mrs : shr_record) :
  0 <= shr_m mrs ->
  shr_m (iter_pos shr_1 p mrs) = Z.shiftr (shr_m mrs) (Zpos p).
Proof.
  rewrite iter_pos_Pos_iter. unfold Z.shiftr, Z.shiftl. cbn [Z.opp].
  revert mrs. induction p as [|p IH] using Pos.peano_ind; intros mrs Hm.
  - cbn [Pos.iter]. apply shr_1_m, Hm.
  - rewrite !Pos.iter_succ. rewrite shr_1_m.
    + rewrite IH by assumption. reflexivity.
    + rewrite IH by assumption.
      clear IH. revert Hm. generalize (shr_m mrs). intros z Hz.
      apply (Pos.iter_invariant p Z Z.div2 (fun z => 0 <= z)); [| assumption].
      intros x Hx. rewrite Z.div2_nonneg. assumption.
Qed.

Lemma shiftr_small (m n d k : Z) :
  0 <= m < 2 ^ d -> 0 <= n -> 0 <= k -> d <= n + k ->
  0 <= Z.shiftr m n < 2 ^ k.
Proof.
  intros [Hm0 Hm] Hn Hk Hd.
  rewrite Z.shiftr_div_pow2 by assumption.
  assert (0 < 2 ^ n) by (apply Z.pow_pos_nonneg; lia).
  split; [apply Z.div_pos; lia |].
  apply Z.div_lt_upper_bound; [assumption |].
  rewrite <- Z.pow_add_r by assumption.
  apply Z.lt_le_trans with (1 := Hm).
  destruct (Z_lt_le_dec d 0) as [Hneg | Hpos].
  - rewrite (Z.pow_neg_r 2 d) by assumption. apply Z.pow_nonneg. lia.
  - apply Z.pow_le_mono_r; lia.
Qed.

Lemma Zdigits2_lt (m d : Z) : 0 < m -> (Zdigits2 m <= d <-> m < 2 ^ d).
Proof. destruct m as [| p | p]; try lia. intros _. apply Zdigits2_pos_lt. Qed.

Lemma Zdigits2_pos (m : Z) : 0 < m -> 0 < Zdigits2 m.
Proof. destruct m; cbn; lia. Qed.

Lemma shr_fexp_spec (m e : Z) (l : location) (mrs : shr_record) (e' : Z) :
  0 <= m ->
  shr_fexp prec emax m e l = (mrs, e') ->
  e' = Z.max e (fexp prec emax (Zdigits2 m + e)) /\
  shr_m mrs = Z.shiftr m (e' - e).
Proof.
  intros Hm. unfold shr_fexp, shr.
  assert (Hrec : shr_m (shr_record_of_loc m l) = m)
    by (destruct l as [| []]; reflexivity).
  destruct (fexp prec emax (Zdigits2 m + e) - e) as [| p | p] eqn:En;
    intro H; injection H as <- <-.
  - split; [lia |]. rewrite Z.sub_diag, Hrec. reflexivity.
  - split; [lia |]. rewrite shr_iter_m by (rewrite Hrec; exact Hm).
    rewrite Hrec. f_equal. lia.
  - split; [lia |]. rewrite Z.sub_diag, Hrec. reflexivity.
Qed.

Lemma round_nearest_even_range (m : Z) (l : location) :
  m <= round_nearest_even m l <= m + 1.
Proof. destruct l as [| []]; cbn; try destruct (Z.even m); lia. Qed.

Lemma shr_fexp_digits (m e : Z) (l : location) (mrs : shr_record) (e' K : Z) :
  0 < m -> Zdigits2 m + e <= K ->
  shr_fexp prec emax m e l = (mrs, e') ->
  0 <= shr_m mrs < 2 ^ prec /\
  (shr_m mrs = 0 \/ Zdigits2 (shr_m mrs) + e' <= K) /\
  e' = Z.max e (fexp prec emax (Zdigits2 m + e)).
Proof.
  intros Hm HK Hs.
  destruct (shr_fexp_spec m e l mrs e' (Z.lt_le_incl _ _ Hm) Hs) as [He' Hmrs].
  pose proof (Zdigits2_pos m Hm) as Hd.
  assert (Hlt : 0 <= m < 2 ^ Zdigits2 m)
    by (split; [lia | apply Zdigits2_lt; [assumption | lia]]).
  assert (Hfe : Zdigits2 m + e - prec <= fexp prec emax (Zdigits2 m + e))
    by (unfold fexp; lia).
  split; [| split; [| exact He']].
  - rewrite Hmrs. apply (shiftr_small m (e' - e) (Zdigits2 m) prec);
      [assumption | lia | unfold prec; lia | lia].
  - rewrite Hmrs.
    destruct (Z_lt_le_dec (Zdigits2 m) (e' - e)) as [Hbig | Hsmall].
    + left. pose proof (shiftr_small m (e' - e) (Zdigits2 m) 0 Hlt).
      cbn in H. lia.
    + pose proof (shiftr_small m (e' - e) (Zdigits2 m) (Zdigits2 m - (e' - e)) Hlt)
        as Hb.
      destruct (Z.eq_dec (Z.shiftr m (e' - e)) 0) as [Hz | Hnz]; [left; assumption |].
      right.
      assert (Zdigits2 (Z.shiftr m (e' - e)) <= Zdigits2 m - (e' - e))
        by (apply Zdigits2_lt; lia).
      lia.
Qed.

Lemma binary_round_aux_below (s : bool) (m e : Z) (l : location) (K : Z) :
  0 < m -> Zdigits2 m + e <= K -> -1074 <= K <= 972 ->
  below (K + 1) (binary_round_aux prec emax s m e l) = true.
Proof.
  intros Hm HK HKr. unfold binary_round_aux.
  destruct (shr_fexp prec emax m e l) as [mrs1 e1] eqn:E1.
  destruct (shr_fexp_digits _ _ _ _ _ K Hm HK E1) as [[Hm1 Hm1p] [Hd1 He1]].
  pose proof (Zdigits2_pos m Hm) as Hd.
  set (m2 := round_nearest_even (shr_m mrs1) (loc_of_shr_record mrs1)).
  pose proof (round_nearest_even_range (shr_m mrs1) (loc_of_shr_record mrs1)) as Hr.
  fold m2 in Hr.
  assert (He1K : e1 <= K /\ e1 <= 971).
  { rewrite He1. unfold fexp, emin, prec, emax. lia. }
  destruct (shr_fexp prec emax m2 e1 loc_Exact) as [mrs2 e2] eqn:E2.
  destruct (Z.eq_dec m2 0) as [Hz2 | Hnz2].
  - rewrite Hz2 in E2. cbv [shr_fexp Zdigits2 shr_record_of_loc] in E2.
    destruct (shr_fexp_spec 0 e1 loc_Exact mrs2 e2 (Z.le_refl 0) E2) as [_ H0].
    rewrite Z.shiftr_0_l in H0. rewrite H0. reflexivity.
  - assert (Hm2 : 0 < m2) by lia.
    assert (Hd2 : Zdigits2 m2 + e1 <= K + 1).
    { assert (Zdigits2 m2 <= K + 1 - e1); [| lia].
      apply Zdigits2_lt; [assumption |].
      destruct (Z.eq_dec (shr_m mrs1) 0) as [Hz | Hnz].
      - assert (H : m2 = 1) by lia. rewrite H.
        apply Z.lt_le_trans with (2 ^ 1); [reflexivity |].
        apply Z.pow_le_mono_r; lia.
      - assert (H : 0 < shr_m mrs1) by lia.
        destruct Hd1 as [? | Hd1]; [contradiction |].
        assert (shr_m mrs1 < 2 ^ (K - e1)) by (apply Zdigits2_lt; lia).
        replace (K + 1 - e1) with (Z.succ (K - e1)) by lia.
        rewrite Z.pow_succ_r; [lia |].
        pose proof (Zdigits2_pos _ H); lia. }
    destruct (shr_fexp_digits _ _ _ _ _ (K + 1) Hm2 Hd2 E2) as [[Hm3 _] [Hd3 He2]].
    destruct (shr_m mrs2) as [| p3 | p3] eqn:E3; [reflexivity | | lia].
    assert (He2le : e2 <= 971).
    { rewrite He2. unfold fexp, emin, prec, emax. lia. }
    replace (emax - prec) with 971 by reflexivity.
    destruct (Z.leb_spec e2 971); [| lia].
    cbn [below]. apply Z.leb_le.
    destruct Hd3 as [? | Hd3]; [discriminate |]. exact Hd3.
Qed.

Lemma below_mono (a b : Z) (x : float64) :
  a <= b -> below a x = true -> below b x = true.
Proof.
  intros Hab. destruct x as [s | s | | s m e]; cbn [below]; try trivial.
  rewrite !Z.leb_le. lia.
Qed.

Lemma below_isfinite (k : Z) (x : float64) : below k x = true -> isfinite x = true.
Proof. destruct x; cbn; congruence. Qed.

Lemma iter_xO_pow (m d : positive) :
  Zpos (Pos.iter xO m d) = Zpos m * 2 ^ Zpos d.
Proof.
  change (Pos.iter xO m d) with (shift_pos d m).
  rewrite shift_pos_correct. change (Z.pow_pos 2 d) with (2 ^ Zpos d). lia.
Qed.

Lemma shl_align_spec (m : positive) (e e' : Z) :
  e' <= e ->
  Zpos (fst (shl_align m e e')) = Zpos m * 2 ^ (e - e') /\
  snd (shl_align m e e') = e'.
Proof.
  intro Hle. unfold shl_align.
  destruct (e' - e) as [| d | d] eqn:Ed; cbn [fst snd]; try lia.
  - replace (e - e') with 0 by lia. split; lia.
  - rewrite iter_xO_pow. replace (e - e') with (Zpos d) by lia. split; reflexivity.
Qed.

Lemma shl_align_id (m : positive) (e e' : Z) :
  e <= e' -> shl_align m e e' = (m, e).
Proof.
  intro Hle. unfold shl_align. destruct (e' - e) eqn:Ed; try reflexivity. lia.
Qed.

Lemma pow2_mul_lt (m d n : Z) :
  0 <= n -> 0 <= m < 2 ^ d -> m * 2 ^ n < 2 ^ (d + n).
Proof.
  intros Hn [Hm0 Hm].
  destruct (Z_lt_le_dec d 0) as [Hneg | Hpos].
  - rewrite Z.pow_neg_r in Hm by assumption. lia.
  - rewrite Z.pow_add_r by assumption.
    apply Z.mul_lt_mono_pos_r; [apply Z.pow_pos_nonneg; lia | assumption].
Qed.

Lemma binary_round_below (s : bool) (p : positive) (e K : Z) :
  Zpos (digits2_pos p) + e <= K -> -1074 <= K <= 972 ->
  below (K + 1) (binary_round prec emax s p e) = true.
Proof.
  intros HK HKr. unfold binary_round.
  set (e' := fexp prec emax (Zpos (digits2_pos p) + e)).
  destruct (Z_le_gt_dec e e') as [Hle | Hgt].
  - rewrite shl_align_id by assumption.
    apply binary_round_aux_below; [lia | exact HK | exact HKr].
  - destruct (shl_align_spec p e e') as [Hm He]; [lia |].
    destruct (shl_align p e e') as [mz ez]. cbn [fst snd] in Hm, He. subst ez.
    apply binary_round_aux_below; [lia | | exact HKr].
    assert (Zdigits2 (Zpos mz) <= Zpos (digits2_pos p) + (e - e')); [| lia].
    apply Zdigits2_lt; [lia |]. rewrite Hm.
    apply pow2_mul_lt; [lia |].
    split; [lia | apply Zdigits2_pos_lt; lia].
Qed.

Lemma binary_normalize_below (m e K : Z) (sz : bool) :
  Zdigits2 m + e <= K -> -1074 <= K <= 972 ->
  below (K + 1) (binary_normalize prec emax m e sz) = true.
Proof.
  intros HK HKr. destruct m as [| p | p]; cbn [binary_normalize].
  - reflexivity.
  - apply binary_round_below; assumption.
  - apply binary_round_below; assumption.
Qed.

Lemma Zdigits2_abs_lt (m d : Z) : Z.abs m < 2 ^ d -> 0 <= d -> Zdigits2 m <= d.
Proof.
  intros Hm Hd. destruct m as [| p | p]; cbn [Zdigits2]; [assumption | |];
    apply Zdigits2_pos_lt; cbn in Hm; lia.
Qed.

Lemma fmul_below (a b : Z) (x y : float64) :
  below a x = true -> below b y = true -> -1074 <= a + b <= 972 ->
  below (a + b + 1) (fmul x y) = true.
Proof.
  intros Hx Hy Hr.
  destruct x as [sx | sx | | sx mx ex], y as [sy | sy | | sy my ey];
    try discriminate; try reflexivity.
  cbn [below] in Hx, Hy. rewrite Z.leb_le in Hx, Hy.
  unfold fmul, SFmul. apply binary_round_aux_below; [lia | | exact Hr].
  assert (Zdigits2 (Zpos (mx * my)) <= Zpos (digits2_pos mx) + Zpos (digits2_pos my));
    [| lia].
  apply Zdigits2_lt; [lia |].
  rewrite Pos2Z.inj_mul, Z.pow_add_r by lia.
  assert (Zpos mx < 2 ^ Zpos (digits2_pos mx)) by (apply Zdigits2_pos_lt; lia).
  assert (Zpos my < 2 ^ Zpos (digits2_pos my)) by (apply Zdigits2_pos_lt; lia).
  nia.
Qed.

Lemma aligned_sum_digits (sx sy : bool) (mx my : positive) (ex ey a b : Z)
      (op : Z -> Z -> Z) :
  (forall u v, Z.abs (op u v) <= Z.abs u + Z.abs v) ->
  Zpos (digits2_pos mx) + ex <= a -> Zpos (digits2_pos my) + ey <= b ->
  let ez := Z.min ex ey in
  Zdigits2 (op (cond_Zopp sx (Zpos (fst (shl_align mx ex ez))))
               (cond_Zopp sy (Zpos (fst (shl_align my ey ez))))) + ez
  <= Z.max a b + 1.
Proof.
  intros Hop Hx Hy ez.
  destruct (shl_align_spec mx ex ez) as [Hmx _]; [subst ez; lia |].
  destruct (shl_align_spec my ey ez) as [Hmy _]; [subst ez; lia |].
  set (X := Zpos (fst (shl_align mx ex ez))) in *.
  set (Y := Zpos (fst (shl_align my ey ez))) in *.
  assert (HX : X < 2 ^ (Z.max a b - ez)).
  { rewrite Hmx. apply Z.lt_le_trans with (2 ^ (Zpos (digits2_pos mx) + (ex - ez))).
    - apply pow2_mul_lt; [subst ez; lia |].
      split; [lia | apply Zdigits2_pos_lt; lia].
    - apply Z.pow_le_mono_r; lia. }
  assert (HY : Y < 2 ^ (Z.max a b - ez)).
  { rewrite Hmy. apply Z.lt_le_trans with (2 ^ (Zpos (digits2_pos my) + (ey - ez))).
    - apply pow2_mul_lt; [subst ez; lia |].
      split; [lia | apply Zdigits2_pos_lt; lia].
    - apply Z.pow_le_mono_r; lia. }
  assert (Hez : 0 <= Z.max a b - ez) by (subst ez; lia).
  assert (Zdigits2 (op (cond_Zopp sx X) (cond_Zopp sy Y)) <= Z.max a b + 1 - ez);
    [| lia].
  apply Zdigits2_abs_lt; [| lia].
  replace (Z.max a b + 1 - ez) with (Z.succ (Z.max a b - ez)) by lia.
  rewrite Z.pow_succ_r by assumption.
  specialize (Hop (cond_Zopp sx X) (cond_Zopp sy Y)).
  assert (Z.abs (cond_Zopp sx X) = X) by (destruct sx; cbn; subst X; lia).
  assert (Z.abs (cond_Zopp sy Y) = Y) by (destruct sy; cbn; subst Y; lia).
  lia.
Qed.

Lemma fadd_below (a b : Z) (x y : float64) :
  below a x = true -> below b y = true -> -1074 <= Z.max a b + 1 <= 972 ->
  below (Z.max a b + 2) (fadd x y) = true.
Proof.
  intros Hx Hy Hr.
  destruct x as [sx | sx | | sx mx ex], y as [sy | sy | | sy my ey];
    try discriminate.
  - destruct sx, sy; reflexivity.
  - apply below_mono with (2 := Hy). lia.
  - apply below_mono with (2 := Hx). lia.
  - cbn [below] in Hx, Hy. rewrite Z.leb_le in Hx, Hy.
    unfold fadd, SFadd.
    replace (Z.max a b + 2) with (Z.max a b + 1 + 1) by lia.
    apply binary_normalize_below; [| exact Hr].
    apply (aligned_sum_digits sx sy mx my ex ey a b Z.add); [intros; lia | lia | lia].
Qed.

Lemma fsub_below (a b : Z) (x y : float64) :
  below a x = true -> below b y = true -> -1074 <= Z.max a b + 1 <= 972 ->
  below (Z.max a b + 2) (fsub x y) = true.
Proof.
  intros Hx Hy Hr.
  destruct x as [sx | sx | | sx mx ex], y as [sy | sy | | sy my ey];
    try discriminate.
  - destruct sx, sy; reflexivity.
  - cbn [fsub SFsub below] in *. rewrite Z.leb_le in *. lia.
  - apply below_mono with (2 := Hx). lia.
  - cbn [below] in Hx, Hy. rewrite Z.leb_le in Hx, Hy.
    unfold fsub, SFsub.
    replace (Z.max a b + 2) with (Z.max a b + 1 + 1) by lia.
    apply binary_normalize_below; [| exact Hr].
    apply (aligned_sum_digits sx sy mx my ex ey a b Z.sub); [intros; lia | lia | lia].
Qed.

End FloatBounds.

(** * The generator: one run, step by step *)

Section GeneratorRun.
Context {R : RandomState} {Obj : Type}.

Lemma draws_length (k : nat) (g : rs_state R) : length (fst (draws k g)) = k.
Proof.
  revert g. induction k as [| k IH]; intro g; cbn [draws]; [reflexivity |].
  destruct (rs_gauss R g) as [x g1]. specialize (IH g1).
  destruct (draws k g1) as [xs g2]. cbn in *. congruence.
Qed.

Lemma draws_add (a b : nat) (g : rs_state R) :
  draws (a + b) g =
  (fst (draws a g) ++ fst (draws b (snd (draws a g))),
   snd (draws b (snd (draws a g)))).
Proof.
  revert g. induction a as [| a IH]; intro g; cbn [draws Nat.add].
  - cbn. destruct (draws b g); reflexivity.
  - destruct (rs_gauss R g) as [x g1]. rewrite (IH g1).
    destruct (draws a g1) as [xs g2]. reflexivity.
Qed.

Lemma draws_mul_succ (i m : nat) (g : rs_state R) :
  snd (draws (S i * m) g) = snd (draws m (snd (draws (i * m) g))).
Proof.
  replace (S i * m)%nat with (i * m + m)%nat by lia.
  rewrite draws_add. reflexivity.
Qed.

Lemma bind_assoc {A B C} (c : M R Obj A) (f : A -> M R Obj B)
      (k : B -> M R Obj C) (w : world R Obj) :
  bind (bind c f) k w = bind c (fun x => bind (f x) k) w.
Proof. unfold bind. destruct (c w) as [[e | a] w']; reflexivity. Qed.

Lemma bind_ret {A B} (a : A) (k : A -> M R Obj B) (w : world R Obj) :
  bind (ret a) k w = k a w.
Proof. reflexivity. Qed.

Lemma bind_randn {B} (n : Z) (k : list float64 -> M R Obj B) (w : world R Obj) :
  0 <= n ->
  bind (randn n) k w =
  k (fst (draws (Z.to_nat n) (np_random w)))
    (set_np_random (snd (draws (Z.to_nat n) (np_random w))) w).
Proof.
  intro Hn. unfold bind, randn.
  destruct (Z.ltb_spec n 0) as [Hlt | _]; [lia |].
  destruct (draws (Z.to_nat n) (np_random w)); reflexivity.
Qed.

Lemma bind_broadcast2 {B} (f : float64 -> float64 -> float64)
      (a b : list float64) (k : list float64 -> M R Obj B) (w : world R Obj) :
  length a = length b ->
  bind (broadcast2 f a b) k w = k (map2 f a b) w.
Proof.
  intro Hl. unfold broadcast2. rewrite Hl, Nat.eqb_refl. reflexivity.
Qed.

Lemma map2_length (f : float64 -> float64 -> float64) (a b : list float64) :
  length a = length b -> length (map2 f a b) = length a.
Proof.
  revert b. induction a as [| x a IH]; intros [| y b] Hl; cbn in *;
    try reflexivity; try discriminate.
  f_equal. apply IH. congruence.
Qed.

Lemma smul_length (c : float64) (a : list float64) : length (smul c a) = length a.
Proof. apply length_map. Qed.

Lemma block_length (g : rs_state R) (n i : nat) : length (block g n i) = n.
Proof. apply draws_length. Qed.

Lemma columns_of_length (p : presets) (N : nat -> list float64) (m : nat) :
  (forall i, length (N i) = m) ->
  Forall (fun col => length col = m) (columns_of p N).
Proof.
  intro HN. unfold columns_of.
  repeat (apply Forall_cons || apply Forall_nil);
    repeat (rewrite ?map2_length, ?smul_length, ?HN; try reflexivity).
Qed.


Lemma np_random_seed_accepted (seed : option Z) (w : world R Obj) :
  accepted seed ->
  exists w1, np_random_seed seed w = (inr tt, w1) /\
             np_random w1 = seeded (R:=R) seed (os_reads w) /\
             stdout w1 = stdout w /\ heap w1 = heap w.
Proof.
  destruct seed as [s |]; cbn [accepted np_random_seed seeded]; intro Hs.
  - destruct (Z.leb_spec 0 s); [| lia]. destruct (Z.ltb_spec s (2 ^ 32)); [| lia].
    eexists; split; [reflexivity |]. cbn. auto.
  - eexists; split; [reflexivity |]. cbn. auto.
Qed.

Lemma bind_vstack {B} (a : list float64) (rest : list (list float64)) (m : nat)
      (k : ndarray2 -> M R Obj B) (w : world R Obj) :
  Forall (fun col => length col = m) (a :: rest) ->
  bind (vstack (a :: rest)) k w =
  k {| shape := (S (length rest), m); rows := a :: rest |} w.
Proof.
  intro Hall. inversion Hall as [| ? ? Ha Hrest]; subst.
  unfold vstack.
  replace (forallb _ rest) with true; [reflexivity |].
  symmetry. apply forallb_forall. intros b Hb.
  rewrite Forall_forall in Hrest. rewrite (Hrest b Hb). apply Nat.eqb_refl.
Qed.

Lemma bind_randn_nat {B} (n : Z) (m : nat) (k : list float64 -> M R Obj B)
      (w : world R Obj) :
  0 <= n -> m = Z.to_nat n ->
  bind (randn n) k w =
  k (fst (draws m (np_random w))) (set_np_random (snd (draws m (np_random w))) w).
Proof. intros Hn ->. apply bind_randn, Hn. Qed.

Lemma sample_data_run (seed : option Z) (n : Z) (dd cd : bool) (w : world R Obj) :
  0 <= n -> accepted seed ->
  sample_data seed n dd cd w =
  (inr (frame_of (Z.to_nat n)
          (columns_of (presets_of dd cd)
             (block (seeded (R:=R) seed (os_reads w)) (Z.to_nat n)))),
   set_np_random (snd (draws (9 * Z.to_nat n) (seeded (R:=R) seed (os_reads w))))
                 (snd (np_random_seed seed w))).
Proof.
  intros Hn Hs.
  destruct (np_random_seed_accepted seed w Hs) as (w1 & Hw1 & Hg & _ & _).
  rewrite Hw1. cbn [snd]. unfold sample_data.
  unfold bind at 1. rewrite Hw1.
  rewrite <- Hg. clear Hg Hw1.
  remember (Z.to_nat n) as m eqn:Hm.
  pose proof (block_length (np_random w1) m 0) as H0.
  pose proof (block_length (np_random w1) m 1) as H1.
  pose proof (block_length (np_random w1) m 2) as H2.
  pose proof (block_length (np_random w1) m 3) as H3.
  pose proof (block_length (np_random w1) m 4) as H4.
  pose proof (block_length (np_random w1) m 5) as H5.
  pose proof (block_length (np_random w1) m 6) as H6.
  pose proof (block_length (np_random w1) m 7) as H7.
  pose proof (block_length (np_random w1) m 8) as H8.
  destruct dd, cd; unfold frame_of, columns_of; cbv zeta;
    cbn [presets_of noise_X noise_H coef_D].
  all: unfold block in *; rewrite !draws_mul_succ in *;
    change (0 * m)%nat with 0%nat in *; cbn [draws snd] in *.
  all: repeat first
         [ rewrite bind_assoc
         | rewrite bind_ret
         | rewrite (bind_randn_nat n m) by assumption; cbn [np_random set_np_random]
         | unfold arr_add, arr_sub; rewrite bind_broadcast2
             by (repeat (rewrite ?map2_length, ?smul_length); congruence) ].
  all: rewrite (bind_vstack _ _ m)
    by (repeat (apply Forall_cons || apply Forall_nil);
        repeat (rewrite ?map2_length, ?smul_length); congruence).
  all: reflexivity.
Qed.

End GeneratorRun.

(** * The generator: what a call returns *)

Section GeneratorResult.
Context {R : RandomState} {Obj : Type}.

Lemma acceptedb_spec (seed : option Z) : acceptedb seed = true <-> accepted seed.
Proof.
  destruct seed as [s |]; cbn; [| tauto].
  rewrite andb_true_iff, Z.leb_le, Z.ltb_lt. tauto.
Qed.

Lemma np_random_seed_rejected (seed : option Z) (w : world R Obj) :
  acceptedb seed = false -> np_random_seed seed w = (inl ValueError, w).
Proof.
  destruct seed as [s |]; cbn [acceptedb np_random_seed]; [| discriminate].
  intros ->. reflexivity.
Qed.

Lemma sample_data_rejected_seed (seed : option Z) (n : Z) (dd cd : bool)
      (w : world R Obj) :
  acceptedb seed = false -> sample_data seed n dd cd w = (inl ValueError, w).
Proof.
  intro Hs. unfold sample_data. unfold bind at 1.
  rewrite np_random_seed_rejected by assumption. reflexivity.
Qed.

Lemma sample_data_negative (seed : option Z) (n : Z) (dd cd : bool)
      (w : world R Obj) :
  n < 0 -> fst (sample_data seed n dd cd w) = inl ValueError.
Proof.
  intro Hn. destruct (acceptedb seed) eqn:Hs.
  - apply acceptedb_spec in Hs.
    destruct (np_random_seed_accepted seed w Hs) as (w1 & Hw1 & _).
    unfold sample_data. unfold bind at 1. rewrite Hw1.
    unfold bind at 1. unfold randn.
    destruct (Z.ltb_spec n 0); [reflexivity | lia].
  - rewrite sample_data_rejected_seed by assumption. reflexivity.
Qed.

(** What a call returns, for every argument. *)
Lemma sample_data_result (seed : option Z) (n : Z) (dd cd : bool)
      (w : world R Obj) :
  fst (sample_data seed n dd cd w) =
  if acceptedb seed && (0 <=? n)
  then inr (frame_of (Z.to_nat n)
              (columns_of (presets_of dd cd)
                 (block (seeded (R:=R) seed (os_reads w)) (Z.to_nat n))))
  else inl ValueError.
Proof.
  destruct (acceptedb seed) eqn:Hs; cbn [andb].
  - destruct (Z.leb_spec 0 n) as [Hn | Hn].
    + rewrite sample_data_run by (try apply acceptedb_spec; assumption).
      reflexivity.
    + apply sample_data_negative, Hn.
  - rewrite sample_data_rejected_seed by assumption. reflexivity.
Qed.

End GeneratorResult.

(** * Cells of the generated table *)

Section Cells.
Context {R : RandomState}.

Lemma nth_map_lt {A B} (f : A -> B) (l : list A) (r : nat) (d : B) (d' : A) :
  (r < length l)%nat -> nth r (map f l) d = f (nth r l d').
Proof.
  intro Hr. rewrite (nth_indep _ d (f d')) by (rewrite length_map; exact Hr).
  apply map_nth.
Qed.

Lemma nth_map2 (f : float64 -> float64 -> float64) (a b : list float64)
      (r : nat) (d : float64) :
  length a = length b -> (r < length a)%nat ->
  nth r (map2 f a b) d = f (nth r a d) (nth r b d).
Proof.
  revert b r. induction a as [| x a IH]; intros [| y b] r Hl Hr; cbn in *;
    try lia; try discriminate.
  destruct r as [| r]; [reflexivity |]. apply IH; [congruence | lia].
Qed.

Lemma nth_smul (c : float64) (a : list float64) (r : nat) (d : float64) :
  (r < length a)%nat -> nth r (smul c a) d = fmul c (nth r a d).
Proof. intro Hr. unfold smul. apply nth_map_lt, Hr. Qed.

Lemma position_lt (c : column) : (position c < 9)%nat.
Proof. destruct c; cbn; lia. Qed.

Lemma frame_of_cell (m : nat) (cols : list (list float64)) (r : nat) (c : column) :
  (r < m)%nat ->
  cell (frame_of m cols) r c =
  nth r (nth (position c) cols []) (S754_zero false) \/
  (length cols <= position c)%nat.
Proof.
  intro Hr. unfold cell, frame_of, T. cbn [df_values rows shape snd fst].
  rewrite (nth_map_lt _ _ _ _ 0%nat) by (rewrite length_seq; exact Hr).
  rewrite seq_nth by exact Hr. cbn [Nat.add].
  destruct (Nat.lt_ge_cases (position c) (length cols)) as [Hlt | Hge];
    [left | right; exact Hge].
  rewrite (nth_map_lt _ _ _ _ []) by exact Hlt. reflexivity.
Qed.

Lemma draws_block (g : rs_state R) (m i r : nat) :
  (i < 9)%nat -> (r < m)%nat ->
  nth (i * m + r) (fst (draws (9 * m) g)) (S754_zero false) =
  nth r (block g m i) (S754_zero false).
Proof.
  intros Hi Hr. unfold block.
  replace (9 * m)%nat with (i * m + (m + (8 - i) * m))%nat by nia.
  rewrite draws_add. cbn [fst]. rewrite draws_add. cbn [fst].
  rewrite app_nth2 by (rewrite draws_length; lia).
  rewrite draws_length. replace (i * m + r - i * m)%nat with r by lia.
  apply app_nth1. rewrite draws_length. exact Hr.
Qed.

Lemma columns_generated (p : presets) (g : rs_state R) (m : nat) :
  generated_by p g m (frame_of m (columns_of p (block g m))).
Proof.
  unfold generated_by. split; [reflexivity |]. split; [| split].
  - unfold frame_of, T. cbn. rewrite length_map, length_seq. reflexivity.
  - unfold frame_of, T. cbn [df_values rows shape snd fst].
    apply Forall_forall. intros row Hrow. apply in_map_iff in Hrow.
    destruct Hrow as (j & <- & _). reflexivity.
  - intros r c Hr.
    assert (Hcell : forall c', cell (frame_of m (columns_of p (block g m))) r c' =
                               nth r (nth (position c') (columns_of p (block g m)) [])
                                   (S754_zero false)).
    { intro c'. destruct (frame_of_cell m (columns_of p (block g m)) r c' Hr)
        as [H | H]; [exact H |].
      pose proof (position_lt c'). cbn in H. lia. }
    unfold noise. rewrite draws_block by (apply position_lt || exact Hr).
    pose proof (block_length g m) as HN.
    destruct c; cbn [equation]; rewrite !Hcell; cbn [columns_of position nth];
      unfold columns_of; cbv zeta; cbn [position nth];
      repeat (first [ rewrite nth_map2
                    | rewrite nth_smul ];
              repeat (rewrite ?map2_length, ?smul_length, ?HN); try lia);
      try reflexivity.
Qed.

End Cells.

(** * Finite cells *)

Section Finite.
Context {R : RandomState}.

Lemma all_below_mono (a b : Z) (l : list float64) :
  a <= b -> all_below a l -> all_below b l.
Proof.
  intros Hab. apply Forall_impl. intros x. apply below_mono, Hab.
Qed.

Lemma draws_below (B : Z) (k : nat) (g : rs_state R) :
  (forall g', below B (fst (rs_gauss R g')) = true) ->
  all_below B (fst (draws k g)).
Proof.
  intro HB. revert g. induction k as [| k IH]; intro g; cbn [draws].
  - constructor.
  - pose proof (HB g) as Hx. destruct (rs_gauss R g) as [x g1].
    specialize (IH g1). destruct (draws k g1) as [xs g2].
    constructor; assumption.
Qed.

Lemma smul_below (a b k : Z) (c : float64) (l : list float64) :
  below a c = true -> all_below b l ->
  -1074 <= a + b <= 972 -> a + b + 1 <= k ->
  all_below k (smul c l).
Proof.
  intros Hc Hl Hr Hk. unfold smul, all_below. rewrite Forall_map.
  revert Hl. apply Forall_impl. intros x Hx.
  apply below_mono with (a + b + 1); [exact Hk |].
  apply fmul_below; assumption.
Qed.

Lemma map2_below (f : float64 -> float64 -> float64) (a b k : Z)
      (l1 l2 : list float64) :
  (forall x y, below a x = true -> below b y = true -> below k (f x y) = true) ->
  all_below a l1 -> all_below b l2 -> all_below k (map2 f l1 l2).
Proof.
  intros Hf H1. revert l2. induction H1 as [| x l1 Hx H1 IH]; intros l2 H2.
  - constructor.
  - destruct H2 as [| y l2 Hy H2]; cbn [map2]; constructor.
    + apply Hf; assumption.
    + apply IH, H2.
Qed.

Lemma arr_add_below (a b k : Z) (l1 l2 : list float64) :
  all_below a l1 -> all_below b l2 ->
  -1074 <= Z.max a b + 1 <= 972 -> Z.max a b + 2 <= k ->
  all_below k (map2 fadd l1 l2).
Proof.
  intros H1 H2 Hr Hk. apply (map2_below fadd a b k); try assumption.
  intros x y Hx Hy. apply below_mono with (Z.max a b + 2); [exact Hk |].
  apply fadd_below; assumption.
Qed.

Lemma arr_sub_below (a b k : Z) (l1 l2 : list float64) :
  all_below a l1 -> all_below b l2 ->
  -1074 <= Z.max a b + 1 <= 972 -> Z.max a b + 2 <= k ->
  all_below k (map2 fsub l1 l2).
Proof.
  intros H1 H2 Hr Hk. apply (map2_below fsub a b k); try assumption.
  intros x y Hx Hy. apply below_mono with (Z.max a b + 2); [exact Hk |].
  apply fsub_below; assumption.
Qed.

Lemma presets_below (dd cd : bool) :
  below 2 (noise_X (presets_of dd cd)) = true /\
  below 2 (coef_D (presets_of dd cd)) = true /\
  below 2 (noise_H (presets_of dd cd)) = true.
Proof. destruct dd, cd; repeat split; reflexivity. Qed.

Lemma columns_below (dd cd : bool) (N : nat -> list float64) (B : Z) :
  0 <= B <= 900 ->
  (forall i, all_below B (N i)) ->
  Forall (all_below (B + 24)) (columns_of (presets_of dd cd) N).
Proof.
  intros HB HN.
  destruct (presets_below dd cd) as (HnX & HcD & HnH).
  unfold columns_of.
  set (C := N 0%nat).
  set (A := smul f0_8 (N 1%nat)).
  set (K := map2 fadd A (smul f0_1 (N 2%nat))).
  set (X := map2 fadd (map2 fsub C (smul f2 A)) (smul _ (N 3%nat))).
  set (F := map2 fadd (smul f3 X) (smul f0_8 (N 4%nat))).
  set (D := map2 fadd (smul _ X) (smul f0_5 (N 5%nat))).
  set (G := map2 fadd D (smul f0_5 (N 6%nat))).
  set (Y := map2 fadd (map2 fsub (smul f2 K) D) (smul f0_2 (N 7%nat))).
  set (H := map2 fadd (smul f0_5 Y) (smul _ (N 8%nat))).
  assert (Hnoise : forall c i, below 2 c = true -> all_below (B + 3) (smul c (N i))).
  { intros c i Hc. apply (smul_below 2 B); [exact Hc | apply HN | lia | lia]. }
  assert (HC : all_below B C) by apply HN.
  assert (HA : all_below (B + 3) A) by (apply Hnoise; reflexivity).
  assert (HK : all_below (B + 5) K).
  { apply (arr_add_below (B + 3) (B + 3)); [exact HA | | lia | lia].
    apply Hnoise; reflexivity. }
  assert (HX : all_below (B + 10) X).
  { apply (arr_add_below (B + 8) (B + 3)); [| | lia | lia].
    - apply (arr_sub_below B (B + 6)); [exact HC | | lia | lia].
      apply (smul_below 2 (B + 3)); [reflexivity | exact HA | lia | lia].
    - apply Hnoise; exact HnX. }
  assert (HF : all_below (B + 15) F).
  { apply (arr_add_below (B + 13) (B + 3)); [| | lia | lia].
    - apply (smul_below 2 (B + 10)); [reflexivity | exact HX | lia | lia].
    - apply Hnoise; reflexivity. }
  assert (HD : all_below (B + 15) D).
  { apply (arr_add_below (B + 13) (B + 3)); [| | lia | lia].
    - apply (smul_below 2 (B + 10)); [exact HcD | exact HX | lia | lia].
    - apply Hnoise; reflexivity. }
  assert (HG : all_below (B + 17) G).
  { apply (arr_add_below (B + 15) (B + 3)); [exact HD | | lia | lia].
    apply Hnoise; reflexivity. }
  assert (HY : all_below (B + 19) Y).
  { apply (arr_add_below (B + 17) (B + 3)); [| | lia | lia].
    - apply (arr_sub_below (B + 8) (B + 15)); [| exact HD | lia | lia].
      apply (smul_below 2 (B + 5)); [reflexivity | exact HK | lia | lia].
    - apply Hnoise; reflexivity. }
  assert (HH : all_below (B + 24) H).
  { apply (arr_add_below (B + 22) (B + 3)); [| | lia | lia].
    - apply (smul_below 2 (B + 19)); [reflexivity | exact HY | lia | lia].
    - apply Hnoise; exact HnH. }
  repeat (apply Forall_cons || apply Forall_nil);
    (eapply all_below_mono; [| eassumption]); lia.
Qed.

Lemma frame_of_finite (m : nat) (cols : list (list float64)) (k : Z) :
  Forall (all_below k) cols ->
  Forall (fun row => Forall (fun x => isfinite x = true) row)
         (df_values (frame_of m cols)).
Proof.
  intro Hcols. unfold frame_of, T. cbn [df_values rows shape snd fst].
  apply Forall_forall. intros row Hrow. apply in_map_iff in Hrow.
  destruct Hrow as (j & <- & _). rewrite Forall_map.
  revert Hcols. apply Forall_impl. intros col Hcol.
  apply below_isfinite with k.
  destruct (Nat.lt_ge_cases j (length col)) as [Hj | Hj].
  - unfold all_below in Hcol. rewrite Forall_forall in Hcol.
    apply Hcol, nth_In, Hj.
  - rewrite nth_overflow by exact Hj. reflexivity.
Qed.

End Finite.

(** * The generator: properties *)

Section Columns.

Lemma map_nth_seq (l : list float64) (d : float64) :
  map (fun j => nth j l d) (seq 0 (length l)) = l.
Proof.
  induction l as [| x l IH]; [reflexivity |].
  cbn [length seq map nth]. f_equal.
  rewrite <- seq_shift, map_map. exact IH.
Qed.

Lemma column_values_frame (m : nat) (cols : list (list float64)) (c : column) :
  (position c < length cols)%nat ->
  length (nth (position c) cols []) = m ->
  column_values (frame_of m cols) c = nth (position c) cols [].
Proof.
  intros Hpos Hlen. unfold column_values, frame_of, T.
  cbn [df_values rows shape snd fst]. rewrite map_map.
  rewrite <- (map_nth_seq (nth (position c) cols []) (S754_zero false)) at 1.
  rewrite Hlen. apply map_ext. intro j.
  apply (nth_map_lt (fun col => nth j col (S754_zero false))), Hpos.
Qed.

End Columns.

Section GeneratorProperties.
Context {R : RandomState} {Obj : Type}.

(** C1. Two calls with the same integer seed, the same [n] and the same
    drift flags have the same outcome, whatever state the process is in
    when each call starts: the same table, cell by cell and bit by bit, or
    the same exception. *)
Theorem sample_data_reproducible (s n : Z) (data_drift concept_drift : bool)
        (w1 w2 : world R Obj) :
  fst (sample_data (Some s) n data_drift concept_drift w1) =
  fst (sample_data (Some s) n data_drift concept_drift w2).
Proof. rewrite !sample_data_result. reflexivity. Qed.

(** C2, as amended. For [n > 0], a seed that [np.random.seed] accepts and
    any drift flags, and a generator whose draws are finite with magnitude
    below [2^B], the call returns a table with [n] rows, the nine labels
    C, A, K, X, F, D, G, Y, H in this order, nine cells in every row, and
    every cell finite (neither NaN nor an infinity). *)
Theorem sample_data_table (seed : option Z) (n : Z)
        (data_drift concept_drift : bool) (w : world R Obj) (B : Z) :
  0 < n -> accepted seed -> 0 <= B <= 900 ->
  (forall g, below B (fst (rs_gauss R g)) = true) ->
  exists df,
    fst (sample_data seed n data_drift concept_drift w) = inr df /\
    length (df_values df) = Z.to_nat n /\
    df_columns df = ["C"; "A"; "K"; "X"; "F"; "D"; "G"; "Y"; "H"]%string /\
    Forall (fun row => length row = 9%nat /\
                       Forall (fun x => isfinite x = true) row)
           (df_values df).
Proof.
  intros Hn Hs HB Hdraw.
  rewrite sample_data_result.
  apply acceptedb_spec in Hs. rewrite Hs.
  destruct (Z.leb_spec 0 n) as [_ | ?]; [| lia]. cbn [andb].
  set (g := seeded seed (os_reads w)).
  eexists. split; [reflexivity |].
  destruct (columns_generated (presets_of data_drift concept_drift) g (Z.to_nat n))
    as (Hnames & Hrows & Hwidth & _).
  split; [exact Hrows |]. split; [exact Hnames |].
  apply Forall_and; [exact Hwidth |].
  apply frame_of_finite with (B + 24).
  apply columns_below; [exact HB |].
  intro i. apply draws_below, Hdraw.
Qed.

(** C3. With [data_drift] set, the table is the one the equations produce
    from the same noise when the noise scale of X and the noise scale of H
    are multiplied by ten (0.2 becomes 2.0, 0.1 becomes 1.0) and nothing
    else changes; the equations of X and H are the only ones that differ
    between the two settings. *)
Theorem data_drift_scales_noise (seed : option Z) (n : Z) (concept_drift : bool)
        (w : world R Obj) :
  0 <= n -> accepted seed ->
  let g := seeded (R:=R) seed (os_reads w) in
  let p0 := presets_of false concept_drift in
  let p1 := {| noise_X := fmul f10 (noise_X p0);
               coef_D := coef_D p0;
               noise_H := fmul f10 (noise_H p0) |} in
  (exists df0 df1,
      fst (sample_data seed n false concept_drift w) = inr df0 /\
      fst (sample_data seed n true concept_drift w) = inr df1 /\
      generated_by p0 g (Z.to_nat n) df0 /\
      generated_by p1 g (Z.to_nat n) df1) /\
  (noise_X p0 = f0_2 /\ noise_X p1 = f2 /\ noise_H p0 = f0_1 /\ noise_H p1 = f1_0) /\
  (forall c, equation p1 c = equation p0 c <-> c <> cX /\ c <> cH).
Proof.
  intros Hn Hs g p0 p1.
  assert (Hp1 : p1 = presets_of true concept_drift)
    by (destruct concept_drift; reflexivity).
  split; [| split].
  - rewrite !sample_data_result.
    apply acceptedb_spec in Hs. rewrite Hs.
    destruct (Z.leb_spec 0 n) as [_ | ?]; [| lia]. cbn [andb].
    do 2 eexists. split; [reflexivity |]. split; [reflexivity |].
    split; [apply columns_generated |].
    rewrite Hp1. apply columns_generated.
  - repeat split; reflexivity.
  - intro c. split.
    + intro Heq. split; intros ->.
      * apply (f_equal (fun f => f (fun _ => S754_zero false) f1_0)) in Heq.
        vm_compute in Heq. destruct concept_drift; discriminate.
      * apply (f_equal (fun f => f (fun _ => S754_zero false) f1_0)) in Heq.
        vm_compute in Heq. destruct concept_drift; discriminate.
    + intros [HX HH]. destruct c; try reflexivity; contradiction.
Qed.

(** C4. With [concept_drift] set, the table is the one the equations
    produce from the same noise when the coefficient of X in the equation of
    D is +2 instead of -2 and nothing else changes: the noise scale of D is
    0.5 in both settings, and the equation of D is the only one that
    differs. *)
Theorem concept_drift_flips_sign (seed : option Z) (n : Z) (data_drift : bool)
        (w : world R Obj) :
  0 <= n -> accepted seed ->
  let g := seeded (R:=R) seed (os_reads w) in
  let p0 := presets_of data_drift false in
  let p1 := {| noise_X := noise_X p0;
               coef_D := fopp (coef_D p0);
               noise_H := noise_H p0 |} in
  (exists df0 df1,
      fst (sample_data seed n data_drift false w) = inr df0 /\
      fst (sample_data seed n data_drift true w) = inr df1 /\
      generated_by p0 g (Z.to_nat n) df0 /\
      generated_by p1 g (Z.to_nat n) df1) /\
  (coef_D p0 = fneg2 /\ coef_D p1 = f2) /\
  (forall p v z, equation p cD v z =
                 fadd (fmul (coef_D p) (v cX)) (fmul f0_5 z)) /\
  (forall c, equation p1 c = equation p0 c <-> c <> cD).
Proof.
  intros Hn Hs g p0 p1.
  assert (Hp1 : p1 = presets_of data_drift true)
    by (destruct data_drift; reflexivity).
  split; [| split; [| split]].
  - rewrite !sample_data_result.
    apply acceptedb_spec in Hs. rewrite Hs.
    destruct (Z.leb_spec 0 n) as [_ | ?]; [| lia]. cbn [andb].
    do 2 eexists. split; [reflexivity |]. split; [reflexivity |].
    split; [apply columns_generated |].
    rewrite Hp1. apply columns_generated.
  - split; reflexivity.
  - reflexivity.
  - intro c. split.
    + intros Heq ->.
      apply (f_equal (fun f => f (fun _ => f1_0) (S754_zero false))) in Heq.
      vm_compute in Heq. discriminate.
    + intros HD. destruct c; try reflexivity; contradiction.
Qed.

Lemma position_inj (c c' : column) : position c = position c' -> c = c'.
Proof. destruct c, c'; cbn; intro H; try reflexivity; discriminate. Qed.

Lemma parents_earlier (c q : column) :
  In q (parents c) -> (position q < position c)%nat.
Proof.
  destruct c; cbn [parents In]; intro H;
    repeat (destruct H as [<- | H]; [cbn; lia |]); contradiction.
Qed.

Lemma equation_reads_parents (p : presets) (c : column)
      (v v' : column -> float64) (z : float64) :
  (forall q, In q (parents c) -> v q = v' q) ->
  equation p c v z = equation p c v' z.
Proof.
  intro Hv. destruct c; cbn [equation]; cbn [parents] in Hv;
    rewrite ?(Hv cC), ?(Hv cA), ?(Hv cK), ?(Hv cX), ?(Hv cD), ?(Hv cY)
      by (cbn; tauto);
    reflexivity.
Qed.

(** C5. The columns are generated in the order C, A, K, X, F, D, G, Y, H:
    every cell is its column's equation applied to cells of the same row in
    columns that come earlier in this order and to one draw of noise, and no
    draw is used for two cells. *)
Theorem columns_in_causal_order (seed : option Z) (n : Z)
        (data_drift concept_drift : bool) (w : world R Obj) :
  0 <= n -> accepted seed ->
  let g := seeded (R:=R) seed (os_reads w) in
  let m := Z.to_nat n in
  (exists df,
      fst (sample_data seed n data_drift concept_drift w) = inr df /\
      generated_by (presets_of data_drift concept_drift) g m df) /\
  (forall c q, In q (parents c) -> (position q < position c)%nat) /\
  (forall p c v v' z,
      (forall q, In q (parents c) -> v q = v' q) ->
      equation p c v z = equation p c v' z) /\
  (forall c c' r r', (r < m)%nat -> (r' < m)%nat ->
      (position c * m + r = position c' * m + r')%nat -> c = c' /\ r = r').
Proof.
  intros Hn Hs g m. split; [| split; [| split]].
  - rewrite sample_data_result.
    apply acceptedb_spec in Hs. rewrite Hs.
    destruct (Z.leb_spec 0 n) as [_ | ?]; [| lia]. cbn [andb].
    eexists. split; [reflexivity | apply columns_generated].
  - exact parents_earlier.
  - exact equation_reads_parents.
  - intros c c' r r' Hr Hr' Heq.
    assert (Hpos : position c = position c') by nia.
    split; [apply position_inj, Hpos | nia].
Qed.

(** C6, as amended. A negative [n] makes the call fail with ValueError.
    For [n = 0] there is no check: with a seed that [np.random.seed]
    accepts the call returns the table with the nine labels and no rows. *)
Theorem sample_data_nonpositive (seed : option Z) (n : Z)
        (data_drift concept_drift : bool) (w : world R Obj) :
  n <= 0 ->
  fst (sample_data seed n data_drift concept_drift w) =
  if (n <? 0) || negb (acceptedb seed) then inl ValueError
  else inr {| df_columns := ["C"; "A"; "K"; "X"; "F"; "D"; "G"; "Y"; "H"]%string;
              df_values := [] |}.
Proof.
  intro Hn. rewrite sample_data_result.
  destruct (Z.ltb_spec n 0) as [Hneg | Hzero].
  - destruct (Z.leb_spec 0 n); [lia |]. rewrite andb_false_r. reflexivity.
  - assert (n = 0) by lia. subst n.
    destruct (acceptedb seed); reflexivity.
Qed.

(** C10. For a fixed integer seed and a fixed [n], the columns C, A and K
    of the returned table do not depend on the drift flags (nor on the state
    of the process when the call starts); when one call fails, the other
    fails with the same exception. *)
Theorem drift_flags_leave_C_A_K (s n : Z) (dd cd dd' cd' : bool)
        (w w' : world R Obj) :
  match fst (sample_data (Some s) n dd cd w),
        fst (sample_data (Some s) n dd' cd' w') with
  | inr df, inr df' =>
      column_values df cC = column_values df' cC /\
      column_values df cA = column_values df' cA /\
      column_values df cK = column_values df' cK
  | inl e, inl e' => e = e'
  | _, _ => False
  end.
Proof.
  rewrite !sample_data_result.
  destruct (acceptedb (Some s) && (0 <=? n)); [| reflexivity].
  cbn [seeded].
  set (N := block (rs_seed R s) (Z.to_nat n)).
  assert (HN : forall i, length (N i) = Z.to_nat n) by (intro; apply block_length).
  assert (Hcol : forall p c,
             column_values (frame_of (Z.to_nat n) (columns_of p N)) c =
             nth (position c) (columns_of p N) []).
  { intros p c. apply column_values_frame.
    - pose proof (position_lt c). cbn. lia.
    - pose proof (columns_of_length p N (Z.to_nat n) HN) as Hall.
      rewrite Forall_forall in Hall. apply Hall, nth_In.
      pose proof (position_lt c). cbn. lia. }
  rewrite !Hcol. repeat split; reflexivity.
Qed.

End GeneratorProperties.

(** * The evaluation helpers: effects *)

Section Effects.
Context {R : RandomState} {Obj : Type}.

Lemma only_prints_refl (w : world R Obj) : only_prints w w.
Proof.
  repeat split. exists []. symmetry. apply app_nil_r.
Qed.

Lemma only_prints_trans (w1 w2 w3 : world R Obj) :
  only_prints w1 w2 -> only_prints w2 w3 -> only_prints w1 w3.
Proof.
  intros (Hg & Ho & Hh & l & Hl) (Hg' & Ho' & Hh' & l' & Hl').
  repeat split; try congruence.
  exists (l ++ l'). rewrite Hl', Hl. symmetry. apply app_assoc.
Qed.

Lemma read_only_quiet {A} (c : M R Obj A) : read_only c -> quiet c.
Proof. intros Hc w. rewrite Hc. apply only_prints_refl. Qed.

Lemma quiet_bind {A B} (c : M R Obj A) (k : A -> M R Obj B) :
  quiet c -> (forall a, quiet (k a)) -> quiet (bind c k).
Proof.
  intros Hc Hk w. unfold bind. specialize (Hc w).
  destruct (c w) as [[e | a] w1]; cbn [snd] in *; [exact Hc |].
  apply only_prints_trans with w1; [exact Hc | apply Hk].
Qed.

Lemma quiet_print (line : string) : quiet (R:=R) (Obj:=Obj) (print line).
Proof. intro w. cbn. repeat split. exists [line]. reflexivity. Qed.

Lemma read_only_ret {A} (a : A) : read_only (R:=R) (Obj:=Obj) (ret a).
Proof. intro w. reflexivity. Qed.

Lemma read_only_raise {A} (e : exn) : read_only (R:=R) (Obj:=Obj) (A:=A) (raise e).
Proof. intro w. reflexivity. Qed.

Lemma read_only_load (r : ref) : read_only (R:=R) (Obj:=Obj) (load r).
Proof. intro w. unfold load. destruct (nth_error (heap w) r); reflexivity. Qed.

Lemma read_only_bind {A B} (c : M R Obj A) (k : A -> M R Obj B) :
  read_only c -> (forall a, read_only (k a)) -> read_only (bind c k).
Proof.
  intros Hc Hk w. unfold bind. specialize (Hc w).
  destruct (c w) as [[e | a] w1]; cbn [snd] in *; [exact Hc |].
  subst w1. apply Hk.
Qed.

Lemma read_only_getitem (df : ref) (names : list string) :
  read_only (R:=R) (Obj:=Obj) (getitem df names).
Proof.
  unfold getitem. apply read_only_bind; [apply read_only_load |].
  intros [x | y | d | o]; try apply read_only_raise.
  destruct (indices_of names (df_columns d));
    [apply read_only_ret | apply read_only_raise].
Qed.

Lemma read_only_subscript {A} (l : list A) (i : nat) :
  read_only (R:=R) (Obj:=Obj) (subscript l i).
Proof.
  unfold subscript. destruct (nth_error l i);
    [apply read_only_ret | apply read_only_raise].
Qed.

Lemma read_only_for_each {A B} (f : A -> M R Obj B) (l : list A) :
  (forall x, read_only (f x)) -> read_only (for_each f l).
Proof.
  intro Hf. induction l as [| x l IH]; cbn [for_each].
  - apply read_only_ret.
  - apply read_only_bind; [apply Hf |]. intro y.
    apply read_only_bind; [exact IH |]. intro ys. apply read_only_ret.
Qed.

Lemma bind_read_only {A B} (c : M R Obj A) (k : A -> M R Obj B) (w : world R Obj) :
  read_only c ->
  bind c k w = match fst (c w) with
               | inr a => k a w
               | inl e => (inl e, w)
               end.
Proof.
  intro Hc. unfold bind. specialize (Hc w).
  destruct (c w) as [[e | a] w1]; cbn [fst snd] in *; subst w1; reflexivity.
Qed.

Section Drive.
Variable format_3f : float64 -> string.
Variable mean_recall : list Z -> list Z -> float64.

Lemma read_only_balanced_accuracy_score (y_true : ref) (y_pred : list Z) :
  read_only (balanced_accuracy_score (R:=R) (Obj:=Obj) mean_recall y_true y_pred).
Proof.
  unfold balanced_accuracy_score. apply read_only_bind; [apply read_only_load |].
  intros [x | y | d | o]; try apply read_only_raise.
  destruct (length y =? length y_pred)%nat;
    [apply read_only_ret | apply read_only_raise].
Qed.

Lemma eval_clf_quiet (clf : estimator) (X_train y_train X_test y_test : ref) :
  read_only_classifier clf ->
  quiet (eval_clf (R:=R) (Obj:=Obj) format_3f mean_recall clf
                  X_train y_train X_test y_test).
Proof.
  intros [Hscore Hpredict]. unfold eval_clf.
  repeat first
         [ apply quiet_print
         | apply read_only_quiet;
           first [ apply Hscore | apply Hpredict
                 | apply read_only_balanced_accuracy_score ]
         | apply quiet_bind; [| intro] ].
Qed.

Lemma bind_print {B} (line : string) (k : unit -> M R Obj B) (w : world R Obj) :
  bind (print line) k w = k tt (emit line w).
Proof. reflexivity. Qed.

Lemma balanced_accuracy_score_labels (y_true : ref) (y_pred l : list Z)
      (w : world R Obj) :
  nth_error (heap w) y_true = Some (Labels l) ->
  fst (balanced_accuracy_score mean_recall y_true y_pred w) =
  if (length l =? length y_pred)%nat then inr (mean_recall l y_pred)
  else inl ValueError.
Proof.
  intro Hl. unfold balanced_accuracy_score, bind, load. rewrite Hl.
  destruct (length l =? length y_pred)%nat; reflexivity.
Qed.

(** C9, as amended. [eval_clf] compares no row counts itself.  When a
    feature matrix and its label vector disagree on the number of rows and
    the estimator follows scikit-learn's conventions (read-only [score] and
    [predict] that report unusable input as ValueError, [predict] returning
    one label for each row), the call raises ValueError: no report is
    completed (fewer than four lines are printed) and the arguments are left
    as they were. *)
Theorem eval_clf_shape_mismatch (clf : estimator)
        (X_train y_train X_test y_test : ref) (w : world R Obj)
        (x_train x_test : list (list float64)) (l_train l_test : list Z) :
  sklearn_classifier clf ->
  nth_error (heap w) X_train = Some (Features x_train) ->
  nth_error (heap w) y_train = Some (Labels l_train) ->
  nth_error (heap w) X_test = Some (Features x_test) ->
  nth_error (heap w) y_test = Some (Labels l_test) ->
  length x_train <> length l_train \/ length x_test <> length l_test ->
  exists w',
    eval_clf format_3f mean_recall clf X_train y_train X_test y_test w =
    (inl ValueError, w') /\
    np_random w' = np_random w /\
    heap w' = heap w /\
    exists lines, stdout w' = stdout w ++ lines /\ (length lines < 4)%nat.
Proof.
  intros [[Hsro Hpro] Hsr Hpr Hrows] HXtr Hytr HXte Hyte Hmis.
  pose proof (fun y p => read_only_balanced_accuracy_score y p) as Hbro.
  assert (Hdone : forall (ls : list string) (w' : world R Obj),
             np_random w' = np_random w -> heap w' = heap w ->
             stdout w' = stdout w ++ ls -> (length ls < 4)%nat ->
             exists w'' : world R Obj,
               (@inl exn unit ValueError, w') = (inl ValueError, w'') /\
               np_random w'' = np_random w /\ heap w'' = heap w /\
               exists lines, stdout w'' = stdout w ++ lines /\
                             (length lines < 4)%nat).
  { intros ls w' Hg Hh Hs Hl. exists w'. repeat split; try assumption.
    exists ls. split; assumption. }
  unfold eval_clf.
  (* clf.score(X_train, y_train) *)
  rewrite bind_read_only by apply Hsro.
  destruct (fst (est_score clf X_train y_train w)) as [e | s1] eqn:E1.
  { apply Hsr in E1. subst e.
    apply (Hdone []); [reflexivity | reflexivity | | cbn; lia].
    symmetry. apply app_nil_r. }
  rewrite bind_print. set (w1 := emit _ w).
  (* clf.score(X_test, y_test) *)
  rewrite bind_read_only by apply Hsro.
  destruct (fst (est_score clf X_test y_test w1)) as [e | s2] eqn:E2.
  { apply Hsr in E2. subst e.
    eapply Hdone; [reflexivity | reflexivity | | ];
      [ repeat match goal with x := _ |- _ => subst x end;
        cbn [stdout emit]; rewrite <- ?app_assoc; reflexivity
      | cbn; lia ]. }
  rewrite bind_print. set (w2 := emit _ w1).
  (* clf.predict(X_train) *)
  rewrite bind_read_only by apply Hpro.
  destruct (fst (est_predict clf X_train w2)) as [e | p1] eqn:E3.
  { apply Hpr in E3. subst e.
    eapply Hdone; [reflexivity | reflexivity | | ];
      [ repeat match goal with x := _ |- _ => subst x end;
        cbn [stdout emit]; rewrite <- ?app_assoc; reflexivity
      | cbn; lia ]. }
  destruct (Hrows _ _ _ E3) as (x1 & Hx1 & Hp1).
  cbn [w2 w1 heap emit] in Hx1. rewrite HXtr in Hx1. injection Hx1 as <-.
  rewrite bind_read_only by apply Hbro.
  rewrite (balanced_accuracy_score_labels y_train p1 l_train w2) by exact Hytr.
  destruct (Nat.eqb_spec (length l_train) (length p1)) as [Hsame1 | Hdiff1].
  2: { eapply Hdone; [reflexivity | reflexivity | | ];
      [ repeat match goal with x := _ |- _ => subst x end;
        cbn [stdout emit]; rewrite <- ?app_assoc; reflexivity
      | cbn; lia ]. }
  rewrite bind_print. set (w3 := emit _ w2).
  (* clf.predict(X_test) *)
  rewrite bind_read_only by apply Hpro.
  destruct (fst (est_predict clf X_test w3)) as [e | p2] eqn:E4.
  { apply Hpr in E4. subst e.
    eapply Hdone; [reflexivity | reflexivity | | ];
      [ repeat match goal with x := _ |- _ => subst x end;
        cbn [stdout emit]; rewrite <- ?app_assoc; reflexivity
      | cbn; lia ]. }
  destruct (Hrows _ _ _ E4) as (x2 & Hx2 & Hp2).
  cbn [w3 w2 w1 heap emit] in Hx2. rewrite HXte in Hx2. injection Hx2 as <-.
  rewrite bind_read_only by apply Hbro.
  rewrite (balanced_accuracy_score_labels y_test p2 l_test w3) by exact Hyte.
  destruct (Nat.eqb_spec (length l_test) (length p2)) as [Hsame2 | Hdiff2].
  2: { eapply Hdone; [reflexivity | reflexivity | | ];
      [ repeat match goal with x := _ |- _ => subst x end;
        cbn [stdout emit]; rewrite <- ?app_assoc; reflexivity
      | cbn; lia ]. }
  exfalso. destruct Hmis as [H | H]; apply H; congruence.
Qed.

End Drive.

Section Causal.
Variable format_3f : float64 -> string.
Variable LinearRegression : @regressor R Obj.

Lemma test_model_quiet (input_vars : list string) (df_train df_test : ref) :
  read_only_regressor LinearRegression ->
  quiet (test_model format_3f LinearRegression input_vars df_train df_test).
Proof.
  intros [Hfit Hscore]. unfold test_model.
  repeat first
         [ apply quiet_print
         | apply read_only_quiet;
           first [ apply Hfit | apply Hscore | apply read_only_getitem
                 | apply read_only_subscript
                 | apply read_only_for_each; intro;
                   repeat (apply read_only_bind; [| intro]);
                   first [ apply read_only_subscript | apply read_only_ret ] ]
         | apply quiet_bind; [| intro] ].
Qed.

End Causal.

End Effects.

(** * Effects of the generator and of the helpers on the process *)

Section ProcessState.
Context {R : RandomState} {Obj : Type}.
Variable format_3f : float64 -> string.
Variable mean_recall : list Z -> list Z -> float64.

Lemma sample_data_final_state (s n : Z) (dd cd : bool) (w : world R Obj) :
  0 <= s < 2 ^ 32 ->
  snd (sample_data (Some s) n dd cd w) =
  set_np_random (snd (draws (9 * Z.to_nat n) (rs_seed R s))) w.
Proof.
  intro Hs. destruct (Z.leb_spec 0 n) as [Hn | Hn].
  - rewrite sample_data_run by (cbn; assumption).
    cbn [snd seeded np_random_seed].
    destruct (Z.leb_spec 0 s); [| lia]. destruct (Z.ltb_spec s (2 ^ 32)); [| lia].
    reflexivity.
  - replace (Z.to_nat n) with 0%nat by lia. cbn [Nat.mul draws snd].
    unfold sample_data. unfold bind at 1. cbn [np_random_seed].
    destruct (Z.leb_spec 0 s); [| lia]. destruct (Z.ltb_spec s (2 ^ 32)); [| lia].
    cbn [andb]. unfold bind at 1. unfold randn.
    destruct (Z.ltb_spec n 0); [reflexivity | lia].
Qed.

(** A call with an integer seed brings the generator to a state that does
    not depend on the state it found, so it cannot leave two different
    states both as they were. *)
Lemma sample_data_overwrites_generator (s n : Z) (dd cd : bool)
      (w1 w2 : world R Obj) :
  0 <= s < 2 ^ 32 -> np_random w1 <> np_random w2 ->
  ~ (np_random (snd (sample_data (Some s) n dd cd w1)) = np_random w1 /\
     np_random (snd (sample_data (Some s) n dd cd w2)) = np_random w2).
Proof.
  intros Hs Hdiff. rewrite !sample_data_final_state by assumption.
  cbn [np_random set_np_random]. intros [H1 H2]. apply Hdiff. congruence.
Qed.

(** C7, as amended. A call of [sample_data] with an integer seed that numpy
    accepts reads nothing of the state it starts in (its outcome is the same
    from every state), but it writes numpy's process-wide generator: after
    the call the generator is in the state reached from the seed by the
    call's draws, and nothing else has changed.  [eval_clf], given an
    estimator whose [score] and [predict] are read-only, changes nothing but
    the standard output, to which it appends. *)
Theorem process_state_effects (s n : Z) (data_drift concept_drift : bool)
        (clf : @estimator R Obj) (X_train y_train X_test y_test : ref)
        (w : world R Obj) :
  0 <= s < 2 ^ 32 -> read_only_classifier clf ->
  (forall w0 : world R Obj, fst (sample_data (Some s) n data_drift concept_drift w0) =
              fst (sample_data (Some s) n data_drift concept_drift w)) /\
  snd (sample_data (Some s) n data_drift concept_drift w) =
    set_np_random (snd (draws (9 * Z.to_nat n) (rs_seed R s))) w /\
  only_prints w (snd (eval_clf format_3f mean_recall clf
                               X_train y_train X_test y_test w)).
Proof.
  intros Hs Hclf. split; [| split].
  - intro w0. rewrite !sample_data_result. reflexivity.
  - apply sample_data_final_state, Hs.
  - apply eval_clf_quiet, Hclf.
Qed.

(** C8, as amended. [eval_clf] leaves the objects it is given (the
    estimator, the feature matrices, the label vectors) as they were and
    never calls [fit]: it behaves the same whatever [fit] would do.
    [test_model] also leaves the data frames it is given as they were, but it
    does fit: it creates a regressor and fits it on the training frame
    before it scores, so an exception raised by [fit] is the outcome of the
    call. *)
Theorem helpers_leave_inputs (clf : @estimator R Obj) (LinearRegression : @regressor R Obj)
        (X_train y_train X_test y_test : ref)
        (input_vars : list string) (df_train df_test : ref) (w : world R Obj) :
  read_only_classifier clf -> read_only_regressor LinearRegression ->
  heap (snd (eval_clf format_3f mean_recall clf X_train y_train X_test y_test w))
    = heap w /\
  (forall fit',
      eval_clf format_3f mean_recall
               {| est_fit := fit'; est_score := est_score clf;
                  est_predict := est_predict clf |}
               X_train y_train X_test y_test =
      eval_clf format_3f mean_recall clf X_train y_train X_test y_test) /\
  heap (snd (test_model format_3f LinearRegression input_vars df_train df_test w))
    = heap w /\
  (forall X y e,
      fst (getitem df_train input_vars w) = inr X ->
      fst (getitem df_train ["Y"%string] w) = inr y ->
      fst (lr_fit LinearRegression X y w) = inl e ->
      fst (test_model format_3f LinearRegression input_vars df_train df_test w)
      = inl e).
Proof.
  intros Hclf Hlr. split; [| split; [| split]].
  - apply (eval_clf_quiet format_3f mean_recall clf _ _ _ _ Hclf w).
  - reflexivity.
  - apply (test_model_quiet format_3f LinearRegression _ _ _ Hlr w).
  - intros X y e HX Hy Hfit. unfold test_model.
    rewrite bind_read_only by apply read_only_getitem. rewrite HX.
    rewrite bind_read_only by apply read_only_getitem. rewrite Hy.
    rewrite bind_read_only by apply Hlr. rewrite Hfit. reflexivity.
Qed.

End ProcessState.

(** * The instances meet the contracts *)

Section InstanceContracts.
Context {R : RandomState}.

Lemma read_only_dummy_predict (self X : ref) :
  read_only (dummy_predict (R:=R) self X).
Proof.
  intro w. unfold dummy_predict.
  destruct (nth_error (heap w) self) as [[? | ? | ? | ?] |];
    destruct (nth_error (heap w) X) as [[? | ? | ? | ?] |]; reflexivity.
Qed.

Lemma read_only_dummy_score (self X y : ref) :
  read_only (dummy_score (R:=R) self X y).
Proof.
  unfold dummy_score. apply read_only_bind; [apply read_only_dummy_predict |].
  intros p w. destruct (nth_error (heap w) y) as [[? | l | ? | ?] |];
    try reflexivity.
  destruct (length l =? length p)%nat; reflexivity.
Qed.

Lemma DummyClassifier_read_only (self : ref) :
  read_only_classifier (DummyClassifier (R:=R) self).
Proof.
  split; intros; [apply read_only_dummy_score | apply read_only_dummy_predict].
Qed.

Lemma dummy_predict_raises (self X : ref) (w : world R Z) (e : exn) :
  fst (dummy_predict self X w) = inl e -> e = ValueError.
Proof.
  unfold dummy_predict.
  destruct (nth_error (heap w) self) as [[? | ? | ? | ?] |];
    destruct (nth_error (heap w) X) as [[? | ? | ? | ?] |]; cbn; congruence.
Qed.

Lemma DummyClassifier_sklearn (self : ref) :
  sklearn_classifier (DummyClassifier (R:=R) self).
Proof.
  constructor.
  - apply DummyClassifier_read_only.
  - intros X y w e. cbn [est_score DummyClassifier]. unfold dummy_score.
    rewrite bind_read_only by apply read_only_dummy_predict.
    destruct (fst (dummy_predict self X w)) as [e' | p] eqn:Ep.
    + cbn. intro H. injection H as <-. apply (dummy_predict_raises _ _ _ _ Ep).
    + destruct (nth_error (heap w) y) as [[? | l | ? | ?] |]; cbn; try congruence.
      destruct (length l =? length p)%nat; cbn; congruence.
  - intros X w e. apply dummy_predict_raises.
  - intros X w p. cbn [est_predict DummyClassifier]. unfold dummy_predict.
    destruct (nth_error (heap w) self) as [[? | ? | ? | c] |];
      destruct (nth_error (heap w) X) as [[rows_X | ? | ? | ?] |];
      cbn; try discriminate.
    intro H. injection H as <-. exists rows_X.
    split; [reflexivity | apply repeat_length].
Qed.

Lemma ZeroRegressor_read_only : read_only_regressor (ZeroRegressor (R:=R)).
Proof.
  split.
  - intros X y w. cbn [lr_fit ZeroRegressor]. unfold zero_fit.
    destruct (length (df_values X) =? length (df_values y))%nat; reflexivity.
  - intros m X y w. reflexivity.
Qed.

Lemma lcg_draws_below (g : rs_state lcg) : below 2 (fst (rs_gauss lcg g)) = true.
Proof. cbn. destruct (Z.even g); reflexivity. Qed.

End InstanceContracts.

(** * Concrete runs *)

(** In binary64, [10 * 0.2] is [2.0] and [10 * 0.1] is [1.0]. *)
Example ten_times_scale : fmul f10 f0_2 = f2 /\ fmul f10 f0_1 = f1_0.
Proof. split; reflexivity. Qed.

(** One row on the stand-in generator: the draws after seed 1 are
    -2, 0.5, -2, ...; so C = -2, A = 0.8 * 0.5, K = A + 0.1 * (-2). *)
Example sample_data_one_row :
  option_map (fun row => firstn 3 row)
    (match fst (sample_data (Some 1) 1 false false notebook0) with
     | inr df => hd_error (df_values df)
     | inl _ => None
     end)
  = Some [fneg2; fmul f0_8 f0_5; fadd (fmul f0_8 f0_5) (fmul f0_1 fneg2)].
Proof. reflexivity. Qed.

(** With the seed left unset the generator is seeded from fresh entropy:
    a second call right after the first returns another table. *)
Example unseeded_calls_differ :
  fst (sample_data None 1 false false notebook0) <>
  fst (sample_data None 1 false false
         (snd (sample_data None 1 false false notebook0))).
Proof. vm_compute. discriminate. Qed.

(** The table of [sample_data(1, n=2)] on the stand-in generator. *)
Lemma sample_data_table_witness :
  exists df,
    fst (sample_data (Some 1) 2 false false notebook0) = inr df /\
    length (df_values df) = Z.to_nat 2 /\
    df_columns df = ["C"; "A"; "K"; "X"; "F"; "D"; "G"; "Y"; "H"]%string /\
    Forall (fun row => length row = 9%nat /\
                       Forall (fun x => isfinite x = true) row)
           (df_values df).
Proof.
  apply (sample_data_table (Some 1) 2 false false notebook0 2).
  - lia.
  - cbn. lia.
  - lia.
  - exact lcg_draws_below.
Defined.

(** A negative seed: [np.random.seed(-1)] raises, no table is returned. *)
Lemma sample_data_rejects_negative_seed :
  fst (sample_data (Some (-1)) 1 false false notebook0) = inl ValueError.
Proof. reflexivity. Qed.

Lemma data_drift_scales_noise_witness :
  exists df0 df1,
    fst (sample_data (Some 1) 2 false false notebook0) = inr df0 /\
    fst (sample_data (Some 1) 2 true false notebook0) = inr df1 /\
    generated_by (presets_of false false) (rs_seed lcg 1) 2 df0 /\
    generated_by {| noise_X := fmul f10 f0_2; coef_D := fneg2;
                    noise_H := fmul f10 f0_1 |} (rs_seed lcg 1) 2 df1.
Proof.
  apply (data_drift_scales_noise (Some 1) 2 false notebook0).
  - lia.
  - cbn. lia.
Defined.

Lemma concept_drift_flips_sign_witness :
  exists df0 df1,
    fst (sample_data (Some 1) 2 false false notebook0) = inr df0 /\
    fst (sample_data (Some 1) 2 false true notebook0) = inr df1 /\
    generated_by (presets_of false false) (rs_seed lcg 1) 2 df0 /\
    generated_by {| noise_X := f0_2; coef_D := fopp fneg2; noise_H := f0_1 |}
                 (rs_seed lcg 1) 2 df1.
Proof.
  apply (concept_drift_flips_sign (Some 1) 2 false notebook0).
  - lia.
  - cbn. lia.
Defined.

Lemma columns_in_causal_order_witness :
  exists df,
    fst (sample_data (Some 1) 2 true true notebook0) = inr df /\
    generated_by (presets_of true true) (rs_seed lcg 1) 2 df.
Proof.
  apply (columns_in_causal_order (Some 1) 2 true true notebook0).
  - lia.
  - cbn. lia.
Defined.

(** [n = 0]: no exception, an empty table. *)
Lemma sample_data_zero_rows :
  fst (sample_data (Some 1) 0 false false notebook0) =
  inr {| df_columns := ["C"; "A"; "K"; "X"; "F"; "D"; "G"; "Y"; "H"]%string;
         df_values := [] |}.
Proof. reflexivity. Qed.

Lemma sample_data_nonpositive_witness :
  fst (sample_data (Some 1) (-3) false false notebook0) = inl ValueError.
Proof.
  apply (sample_data_nonpositive (Some 1) (-3) false false notebook0). lia.
Defined.

(** [sample_data(1, n=1)] moves numpy's generator away from the state the
    notebook was in. *)
Lemma sample_data_moves_generator :
  np_random (snd (sample_data (Some 1) 1 false false notebook0))
  <> np_random notebook0.
Proof. vm_compute. discriminate. Qed.

Lemma process_state_effects_witness :
  (forall w0 : world lcg Z,
      fst (sample_data (Some 1) 2 false false w0) =
      fst (sample_data (Some 1) 2 false false notebook0)) /\
  snd (sample_data (Some 1) 2 false false notebook0) =
    set_np_random (snd (draws (9 * Z.to_nat 2) (rs_seed lcg 1))) notebook0 /\
  only_prints notebook0
    (snd (eval_clf fixed_3f per_class_recall_mean (DummyClassifier 0%nat)
                   1%nat 2%nat 1%nat 2%nat notebook0)).
Proof.
  apply (process_state_effects fixed_3f per_class_recall_mean 1 2 false false
           (DummyClassifier 0%nat) 1%nat 2%nat 1%nat 2%nat notebook0).
  - lia.
  - apply DummyClassifier_read_only.
Defined.

(** [test_model(["X"], df, df)] with two regressors that differ in [fit]
    only: the outcome of the call is the outcome of [fit]. *)
Lemma test_model_calls_fit :
  fst (test_model fixed_3f RejectingRegressor ["X"%string] 4%nat 4%nat notebook0)
    = inl ValueError /\
  fst (test_model fixed_3f ZeroRegressor ["X"%string] 4%nat 4%nat notebook0)
    = inr tt.
Proof. split; reflexivity. Qed.

Lemma helpers_leave_inputs_witness :
  heap (snd (eval_clf fixed_3f per_class_recall_mean (DummyClassifier 0%nat)
                      1%nat 2%nat 1%nat 2%nat notebook0)) = heap notebook0 /\
  heap (snd (test_model fixed_3f ZeroRegressor ["X"%string] 4%nat 4%nat notebook0))
    = heap notebook0.
Proof.
  destruct (helpers_leave_inputs fixed_3f per_class_recall_mean
              (DummyClassifier 0%nat) ZeroRegressor 1%nat 2%nat 1%nat 2%nat
              ["X"%string] 4%nat 4%nat notebook0
              (DummyClassifier_read_only 0%nat) ZeroRegressor_read_only)
    as (Heval & _ & Htest & _).
  split; assumption.
Defined.

Lemma MemoClassifier_read_only {R : RandomState} (memo : list Z) :
  read_only_classifier (MemoClassifier (R:=R) memo).
Proof.
  split.
  - intros X y w. cbn [est_score MemoClassifier]. unfold memo_score.
    destruct (nth_error (heap w) y) as [[? | ? | ? | ?] |]; reflexivity.
  - intros X w. reflexivity.
Qed.

(** Three feature rows against two labels in both splits, and an estimator
    that answers with two memorised labels: [eval_clf] raises nothing and
    prints the complete report. *)
Lemma eval_clf_accepts_mismatch :
  nth_error (heap notebook0) 1 = Some (Features [[f1_0]; [f2]; [f3]]) /\
  nth_error (heap notebook0) 3 = Some (Labels [0; 1]) /\
  fst (eval_clf fixed_3f per_class_recall_mean (MemoClassifier [0; 1])
                1%nat 3%nat 1%nat 3%nat notebook0) = inr tt /\
  length (stdout (snd (eval_clf fixed_3f per_class_recall_mean
                                (MemoClassifier [0; 1])
                                1%nat 3%nat 1%nat 3%nat notebook0))) = 4%nat.
Proof. repeat split; reflexivity. Qed.

(** Three feature rows against two labels. *)
Lemma eval_clf_shape_mismatch_witness :
  exists w',
    eval_clf fixed_3f per_class_recall_mean (DummyClassifier 0%nat)
             1%nat 3%nat 1%nat 2%nat notebook0 = (inl ValueError, w') /\
    np_random w' = np_random notebook0 /\
    heap w' = heap notebook0 /\
    exists lines, stdout w' = stdout notebook0 ++ lines /\ (length lines < 4)%nat.
Proof.
  apply (eval_clf_shape_mismatch fixed_3f per_class_recall_mean
           (DummyClassifier 0%nat) 1%nat 3%nat 1%nat 2%nat notebook0
           [[f1_0]; [f2]; [f3]] [[f1_0]; [f2]; [f3]] [0; 1] [0; 1; 0]).
  - apply DummyClassifier_sklearn.
  - reflexivity.
  - reflexivity.
  - reflexivity.
  - reflexivity.
  - left. cbn. lia.
Defined.

(** * More on the generator *)

Section GeneratorMore.
Context {R : RandomState} {Obj : Type}.

Lemma sample_data_state (seed : option Z) (n : Z) (dd cd : bool)
      (w : world R Obj) :
  snd (sample_data seed n dd cd w) =
  if acceptedb seed
  then {| np_random := snd (draws (9 * Z.to_nat n) (seeded seed (os_reads w)));
          os_reads := match seed with
                      | Some _ => os_reads w
                      | None => S (os_reads w)
                      end;
          stdout := stdout w;
          heap := heap w |}
  else w.
Proof.
  destruct (acceptedb seed) eqn:Hs.
  - destruct (Z.leb_spec 0 n) as [Hn | Hn].
    + rewrite sample_data_run by (try apply acceptedb_spec; assumption).
      cbn [snd]. destruct seed as [s |]; cbn [np_random_seed seeded].
      * cbn [acceptedb] in Hs. rewrite Hs. reflexivity.
      * reflexivity.
    + replace (Z.to_nat n) with 0%nat by lia. cbn [Nat.mul draws snd].
      unfold sample_data. unfold bind at 1.
      destruct seed as [s |]; cbn [np_random_seed seeded].
      * cbn [acceptedb] in Hs. rewrite Hs. unfold bind at 1. unfold randn.
        destruct (Z.ltb_spec n 0); [reflexivity | lia].
      * unfold bind at 1. unfold randn.
        destruct (Z.ltb_spec n 0); [reflexivity | lia].
  - rewrite sample_data_rejected_seed by assumption. reflexivity.
Qed.

(** X1. With the same seed, [n] and [data_drift], switching [concept_drift]
    leaves the columns C, A, K, X and F as they are: the flag acts on D and
    on what is computed from D.  When one call fails, so does the other,
    with the same exception. *)
Theorem concept_drift_leaves_predictors (seed : option Z) (n : Z)
        (data_drift : bool) (w : world R Obj) :
  match fst (sample_data seed n data_drift false w),
        fst (sample_data seed n data_drift true w) with
  | inr df, inr df' =>
      Forall (fun c => column_values df c = column_values df' c)
             [cC; cA; cK; cX; cF]
  | inl e, inl e' => e = e'
  | _, _ => False
  end.
Proof.
  rewrite !sample_data_result.
  destruct (acceptedb seed && (0 <=? n)); [| reflexivity].
  set (N := block (seeded seed (os_reads w)) (Z.to_nat n)).
  assert (HN : forall i, length (N i) = Z.to_nat n) by (intro; apply block_length).
  assert (Hcol : forall p c,
             column_values (frame_of (Z.to_nat n) (columns_of p N)) c =
             nth (position c) (columns_of p N) []).
  { intros p c. apply column_values_frame.
    - pose proof (position_lt c). cbn. lia.
    - pose proof (columns_of_length p N (Z.to_nat n) HN) as Hall.
      rewrite Forall_forall in Hall. apply Hall, nth_In.
      pose proof (position_lt c). cbn. lia. }
  repeat constructor; rewrite !Hcol; destruct data_drift; reflexivity.
Qed.

(** X2. What a call does to the process, for every argument: with a seed
    numpy rejects nothing changes; otherwise the generator is reseeded and
    advanced by exactly 9 * n draws (none for a negative [n]), one read of
    operating-system entropy is used when the seed is unset, and standard
    output and the caller's objects are untouched.  The drift flags play no
    part in it. *)
Theorem sample_data_process_state (seed : option Z) (n : Z)
        (data_drift concept_drift : bool) (w : world R Obj) :
  snd (sample_data seed n data_drift concept_drift w) =
  if acceptedb seed
  then {| np_random := snd (draws (9 * Z.to_nat n) (seeded seed (os_reads w)));
          os_reads := match seed with
                      | Some _ => os_reads w
                      | None => S (os_reads w)
                      end;
          stdout := stdout w;
          heap := heap w |}
  else w.
Proof. apply sample_data_state. Qed.

Lemma sample_data_returns (seed : option Z) (n : Z) (dd cd : bool)
      (w : world R Obj) (df : DataFrame) :
  fst (sample_data seed n dd cd w) = inr df ->
  accepted seed /\ 0 <= n /\
  df = frame_of (Z.to_nat n)
         (columns_of (presets_of dd cd)
            (block (seeded (R:=R) seed (os_reads w)) (Z.to_nat n))) /\
  generated_by (presets_of dd cd) (seeded (R:=R) seed (os_reads w))
               (Z.to_nat n) df.
Proof.
  rewrite sample_data_result.
  destruct (acceptedb seed) eqn:Hs; [| discriminate].
  destruct (Z.leb_spec 0 n) as [Hn | Hn]; [| discriminate].
  cbn [andb]. intro H. injection H as <-.
  split; [apply acceptedb_spec, Hs |]. split; [exact Hn |].
  split; [reflexivity | apply columns_generated].
Qed.

Lemma generated_cells_agree (p : presets) (g g' : rs_state R) (n n' : nat)
      (df df' : DataFrame) (r r' : nat) :
  generated_by p g n df -> generated_by p g' n' df' ->
  (r < n)%nat -> (r' < n')%nat ->
  (forall c, noise g n c r = noise g' n' c r') ->
  forall c, cell df r c = cell df' r' c.
Proof.
  intros (_ & _ & _ & Hc) (_ & _ & _ & Hc') Hr Hr' Hz.
  assert (Hstep : forall c,
             (forall q, In q (parents c) -> cell df r q = cell df' r' q) ->
             cell df r c = cell df' r' c).
  { intros c Hq. rewrite (Hc r c Hr), (Hc' r' c Hr'), Hz.
    apply equation_reads_parents, Hq. }
  assert (HC : cell df r cC = cell df' r' cC)
    by (apply Hstep; cbn; tauto).
  assert (HA : cell df r cA = cell df' r' cA)
    by (apply Hstep; cbn; tauto).
  assert (HK : cell df r cK = cell df' r' cK)
    by (apply Hstep; cbn; intros q [<- | []]; assumption).
  assert (HX : cell df r cX = cell df' r' cX)
    by (apply Hstep; cbn; intros q [<- | [<- | []]]; assumption).
  assert (HF : cell df r cF = cell df' r' cF)
    by (apply Hstep; cbn; intros q [<- | []]; assumption).
  assert (HD : cell df r cD = cell df' r' cD)
    by (apply Hstep; cbn; intros q [<- | []]; assumption).
  assert (HG : cell df r cG = cell df' r' cG)
    by (apply Hstep; cbn; intros q [<- | []]; assumption).
  assert (HY : cell df r cY = cell df' r' cY)
    by (apply Hstep; cbn; intros q [<- | [<- | []]]; assumption).
  assert (HH : cell df r cH = cell df' r' cH)
    by (apply Hstep; cbn; intros q [<- | []]; assumption).
  intros []; assumption.
Qed.

Lemma nine_cells_eq (a b : list float64) :
  length a = 9%nat -> length b = 9%nat ->
  (forall c, nth (position c) a (S754_zero false) =
             nth (position c) b (S754_zero false)) ->
  a = b.
Proof.
  intros Ha Hb H.
  do 9 (destruct a as [| ? a]; [discriminate |]).
  do 9 (destruct b as [| ? b]; [discriminate |]).
  destruct a; [| discriminate]. destruct b; [| discriminate].
  pose proof (H cC) as HC. pose proof (H cA) as HA. pose proof (H cK) as HK.
  pose proof (H cX) as HX. pose proof (H cF) as HF. pose proof (H cD) as HD.
  pose proof (H cG) as HG. pose proof (H cY) as HY. pose proof (H cH) as HH.
  cbn in *. congruence.
Qed.

Lemma generated_row_length (p : presets) (g : rs_state R) (n : nat)
      (df : DataFrame) (r : nat) :
  generated_by p g n df -> (r < n)%nat ->
  length (nth r (df_values df) []) = 9%nat.
Proof.
  intros (_ & Hlen & Hw & _) Hr. rewrite Forall_forall in Hw.
  apply Hw, nth_In. lia.
Qed.

(** X3. A row of the table is a function of its own nine draws and of the
    drift flags: two calls with the same flags (whatever their seeds and
    row counts) return the same row wherever the nine draws behind the two
    rows coincide. *)
Theorem row_depends_on_its_draws (seed seed' : option Z) (n n' : Z)
        (data_drift concept_drift : bool) (w w' : world R Obj)
        (df df' : DataFrame) (r r' : nat) :
  fst (sample_data seed n data_drift concept_drift w) = inr df ->
  fst (sample_data seed' n' data_drift concept_drift w') = inr df' ->
  (r < Z.to_nat n)%nat -> (r' < Z.to_nat n')%nat ->
  (forall c, noise (seeded (R:=R) seed (os_reads w)) (Z.to_nat n) c r =
             noise (seeded (R:=R) seed' (os_reads w')) (Z.to_nat n') c r') ->
  nth r (df_values df) [] = nth r' (df_values df') [].
Proof.
  intros Hdf Hdf' Hr Hr' Hz.
  apply sample_data_returns in Hdf. destruct Hdf as (_ & _ & _ & Hg).
  apply sample_data_returns in Hdf'. destruct Hdf' as (_ & _ & _ & Hg').
  apply nine_cells_eq.
  - apply (generated_row_length _ _ _ _ _ Hg Hr).
  - apply (generated_row_length _ _ _ _ _ Hg' Hr').
  - intro c. apply (generated_cells_agree _ _ _ _ _ _ _ _ _ Hg Hg' Hr Hr' Hz).
Qed.

End GeneratorMore.

(** * Selecting columns by name *)

Section Selection.
Context {R : RandomState} {Obj : Type}.

Lemma index_of_None (name : string) (columns : list string) :
  index_of name columns = None <-> ~ In name columns.
Proof.
  induction columns as [| c rest IH]; cbn [index_of In]; [tauto |].
  destruct (String.eqb_spec c name) as [-> | Hne].
  - split; [discriminate | tauto].
  - destruct (index_of name rest); cbn [option_map].
    + split; [discriminate |]. intro H.
      assert (Hn : ~ In name rest) by tauto. apply IH in Hn. discriminate.
    + split; [| reflexivity]. intros _ [H | H]; [contradiction |].
      apply (proj1 IH); [reflexivity | exact H].
Qed.

Lemma indices_of_None (names columns : list string) :
  indices_of names columns = None <->
  exists v, In v names /\ ~ In v columns.
Proof.
  induction names as [| x rest IH]; cbn [indices_of In].
  - split; [discriminate | intros (v & [] & _)].
  - destruct (index_of x columns) as [i |] eqn:Hx.
    + destruct (indices_of rest columns) as [l |].
      * split; [discriminate |]. intros (v & [<- | Hv] & Hn).
        -- apply index_of_None in Hn. congruence.
        -- exfalso. assert (H : @None (list nat) = None) by reflexivity.
           assert (Hex : exists v, In v rest /\ ~ In v columns)
             by (exists v; tauto).
           apply IH in Hex. discriminate.
      * split; [| reflexivity]. intros _.
        destruct (proj1 IH eq_refl) as (v & Hv & Hn). exists v. tauto.
    + split; [| reflexivity]. intros _. exists x.
      split; [left; reflexivity | apply index_of_None, Hx].
Qed.

Lemma indices_of_filter (keep : string -> bool) (columns : list string) :
  exists idx, indices_of (filter keep columns) columns = Some idx /\
              length idx = length (filter keep columns).
Proof.
  assert (Hgen : forall names,
             (forall v, In v names -> In v columns) ->
             exists idx, indices_of names columns = Some idx /\
                         length idx = length names).
  { induction names as [| x rest IH]; intro Hin; cbn [indices_of].
    - exists []. split; reflexivity.
    - destruct (IH (fun v Hv => Hin v (or_intror Hv))) as (l & -> & Hl).
      destruct (index_of x columns) as [i |] eqn:Hx.
      + exists (i :: l). split; [reflexivity | cbn; congruence].
      + apply index_of_None in Hx. exfalso. apply Hx, Hin. left. reflexivity. }
  apply Hgen. intros v Hv. apply filter_In in Hv. tauto.
Qed.

Lemma index_of_Some (name : string) (columns : list string) (i : nat) :
  index_of name columns = Some i -> nth_error columns i = Some name.
Proof.
  revert i. induction columns as [| c rest IH]; intro i; cbn [index_of];
    [discriminate |].
  destruct (String.eqb_spec c name) as [-> | Hne].
  - intro H. injection H as <-. reflexivity.
  - destruct (index_of name rest) as [j |]; cbn [option_map]; [| discriminate].
    intro H. injection H as <-. cbn [nth_error]. apply IH. reflexivity.
Qed.

Lemma indices_of_In (names columns : list string) (idx : list nat) (j : nat) :
  indices_of names columns = Some idx -> In j idx ->
  exists v, In v names /\ index_of v columns = Some j.
Proof.
  revert idx. induction names as [| x rest IH]; intro idx; cbn [indices_of].
  - intro H. injection H as <-. intros [].
  - destruct (index_of x columns) as [i |] eqn:Hx; [| discriminate].
    destruct (indices_of rest columns) as [l |]; [| discriminate].
    intro H. injection H as <-. intros [<- | Hj].
    + exists x. split; [left; reflexivity | exact Hx].
    + destruct (IH l eq_refl Hj) as (v & Hv & Hi).
      exists v. split; [right; exact Hv | exact Hi].
Qed.

Lemma indices_of_distinct (names columns : list string) (idx : list nat) :
  NoDup names -> indices_of names columns = Some idx -> NoDup idx.
Proof.
  intro Hnd. revert idx.
  induction Hnd as [| x rest Hx Hnd IH]; intro idx; cbn [indices_of].
  - intro H. injection H as <-. constructor.
  - destruct (index_of x columns) as [i |] eqn:Hi; [| discriminate].
    destruct (indices_of rest columns) as [l |] eqn:Hl; [| discriminate].
    intro H. injection H as <-. constructor; [| apply IH; reflexivity].
    intro Hin. destruct (indices_of_In rest columns l i Hl Hin) as (v & Hv & Hvi).
    apply index_of_Some in Hi. apply index_of_Some in Hvi.
    rewrite Hi in Hvi. injection Hvi as ->. contradiction.
Qed.

Lemma getitem_frame (r : ref) (names : list string) (d : DataFrame)
      (w : world R Obj) :
  nth_error (heap w) r = Some (Frame d) ->
  getitem r names w =
  match indices_of names (df_columns d) with
  | Some idx => (inr (take_columns names idx d), w)
  | None => (inl KeyError, w)
  end.
Proof.
  intro Hr. unfold getitem, bind, load. rewrite Hr.
  destruct (indices_of names (df_columns d)); reflexivity.
Qed.

Lemma getitem_series_frame (r : ref) (name : string) (d : DataFrame)
      (w : world R Obj) :
  nth_error (heap w) r = Some (Frame d) ->
  getitem_series r name w =
  match index_of name (df_columns d) with
  | Some j => (inr (map (fun row => nth j row (S754_zero false)) (df_values d)), w)
  | None => (inl KeyError, w)
  end.
Proof.
  intro Hr. unfold getitem_series, bind, load. rewrite Hr.
  destruct (index_of name (df_columns d)); reflexivity.
Qed.

Lemma indices_of_column_names (cs : list column) :
  indices_of (map column_name cs) (map column_name all_columns) =
  Some (map position cs).
Proof.
  induction cs as [| c cs IH]; [reflexivity |].
  cbn [map indices_of]. rewrite IH. destruct c; reflexivity.
Qed.

Lemma getitem_named_columns (r : ref) (cs : list column) (d : DataFrame)
      (w : world R Obj) :
  df_columns d = map column_name all_columns ->
  nth_error (heap w) r = Some (Frame d) ->
  getitem r (map column_name cs) w =
  (inr {| df_columns := map column_name cs;
          df_values :=
            map (fun row => map (fun c => nth (position c) row (S754_zero false)) cs)
                (df_values d) |}, w).
Proof.
  intros Hnames Hr.
  rewrite (getitem_frame r _ d w Hr), Hnames, indices_of_column_names.
  unfold take_columns. do 3 f_equal. apply map_ext. intro row.
  apply map_map.
Qed.

(** X4. Selecting columns by name from a table that [sample_data] returned
    never fails for names among C, A, K, X, F, D, G, Y, H, and gives, row by
    row, the cells of exactly the named columns in the order asked for. *)
Theorem getitem_generated (seed : option Z) (n : Z) (dd cd : bool)
        (w0 w : world R Obj) (df : DataFrame) (r : ref) (cs : list column) :
  fst (sample_data seed n dd cd w0) = inr df ->
  nth_error (heap w) r = Some (Frame df) ->
  getitem r (map column_name cs) w =
  (inr {| df_columns := map column_name cs;
          df_values :=
            map (fun row => map (fun c => nth (position c) row (S754_zero false)) cs)
                (df_values df) |}, w).
Proof.
  intros Hdf Hr. apply sample_data_returns in Hdf.
  destruct Hdf as (_ & _ & _ & Hnames & _).
  apply getitem_named_columns; assumption.
Qed.

End Selection.

(** * [test_model]: what is printed, and when *)

Section TestModel.
Context {R : RandomState} {Obj : Type}.
Variable format_3f : float64 -> string.
Variable LinearRegression : @regressor R Obj.

(** X5. A name in [input_vars] that is not a column of the training frame,
    or a training frame without a column Y, makes [test_model] raise
    KeyError before anything is fitted or printed: the process is left as
    it was, whatever the regressor. *)
Theorem test_model_missing_column (input_vars : list string)
        (df_train df_test : ref) (dtr : DataFrame) (w : world R Obj) :
  nth_error (heap w) df_train = Some (Frame dtr) ->
  (exists v, In v (input_vars ++ ["Y"%string]) /\ ~ In v (df_columns dtr)) ->
  test_model format_3f LinearRegression input_vars df_train df_test w =
  (inl KeyError, w).
Proof.
  intros Hr (v & Hv & Hmiss). unfold test_model.
  rewrite bind_read_only by apply read_only_getitem.
  rewrite (getitem_frame df_train input_vars dtr w Hr).
  destruct (indices_of input_vars (df_columns dtr)) as [idx |] eqn:Hidx;
    [| reflexivity].
  cbn [fst].
  rewrite bind_read_only by apply read_only_getitem.
  rewrite (getitem_frame df_train ["Y"%string] dtr w Hr).
  destruct (indices_of ["Y"%string] (df_columns dtr)) as [idy |] eqn:Hidy;
    [| reflexivity].
  exfalso. apply in_app_or in Hv. destruct Hv as [Hv | Hv].
  - assert (Hex : exists v, In v input_vars /\ ~ In v (df_columns dtr))
      by (exists v; tauto).
    apply indices_of_None in Hex. congruence.
  - assert (Hex : exists v, In v ["Y"%string] /\ ~ In v (df_columns dtr))
      by (exists v; tauto).
    apply indices_of_None in Hex. congruence.
Qed.

Lemma one_line_or_nothing_bind {A} (c : M R Obj A) (k : A -> M R Obj unit) :
  read_only c ->
  (forall a w, (exists e, k a w = (inl e, w)) \/
               (exists line, k a w = (inr tt, emit line w))) ->
  forall w, (exists e, bind c k w = (inl e, w)) \/
            (exists line, bind c k w = (inr tt, emit line w)).
Proof.
  intros Hc Hk w. rewrite bind_read_only by exact Hc.
  destruct (fst (c w)) as [e | a]; [left; exists e; reflexivity | apply Hk].
Qed.

(** X6. The report of [test_model] is all or nothing: with a regressor
    whose [fit] and [score] are read-only, a call either raises and leaves
    the process exactly as it was (nothing printed), or returns after
    printing exactly one line, with nothing else changed. *)
Theorem test_model_one_line_or_nothing (input_vars : list string)
        (df_train df_test : ref) (w : world R Obj) :
  read_only_regressor LinearRegression ->
  (exists e, test_model format_3f LinearRegression input_vars df_train df_test w
             = (inl e, w)) \/
  (exists line, test_model format_3f LinearRegression input_vars df_train df_test w
                = (inr tt, emit line w)).
Proof.
  intros [Hfit Hscore]. revert w. unfold test_model.
  repeat (apply one_line_or_nothing_bind;
          [ first [ apply read_only_getitem | apply Hfit | apply Hscore
                  | apply read_only_subscript
                  | apply read_only_for_each; intro;
                    repeat (apply read_only_bind; [| intro]);
                    first [ apply read_only_subscript | apply read_only_ret ] ]
          | intro ]).
  intro w. right. eexists. reflexivity.
Qed.

Lemma for_each_pure {A B} (f : A -> M R Obj B) (g : A -> B) (l : list A)
      (w : world R Obj) :
  (forall x, In x l -> f x w = (inr (g x), w)) ->
  for_each f l w = (inr (map g l), w).
Proof.
  induction l as [| x l IH]; intro Hf; cbn [for_each map]; [reflexivity |].
  unfold bind at 1. rewrite (Hf x (or_introl eq_refl)).
  unfold bind at 1. rewrite IH by (intros y Hy; apply Hf; right; exact Hy).
  reflexivity.
Qed.

Lemma map_seq_combine {A B C} (F : A -> B -> C) (a : list A) (b : list B)
      (da : A) (db : B) :
  (length b <= length a)%nat ->
  map (fun i => F (nth i a da) (nth i b db)) (seq 0 (length b)) =
  map (fun ab => F (fst ab) (snd ab)) (combine a b).
Proof.
  revert a. induction b as [| y b IH]; intros a Hl.
  - destruct a; reflexivity.
  - destruct a as [| x a]; [cbn in Hl; lia |].
    cbn [length seq map combine nth fst snd]. f_equal.
    rewrite <- seq_shift, map_map. apply IH. cbn in Hl. lia.
Qed.

(** X7. When the four column selections, the fit and the two scores go
    through, and the fitted model exposes an intercept and one row of at
    least [len(input_vars)] coefficients, [test_model] returns after printing
    one line: the two scores, the first intercept, and one term for each
    input variable, the i-th coefficient next to the i-th name, in the order
    of [input_vars]. *)
Theorem test_model_report (input_vars : list string) (df_train df_test : ref)
        (w : world R Obj) (X_tr y_tr X_te y_te : DataFrame)
        (lm : lr_model LinearRegression) (r2_train r2_test b : float64)
        (bs row : list float64) (more : list (list float64)) :
  read_only_regressor LinearRegression ->
  fst (getitem df_train input_vars w) = inr X_tr ->
  fst (getitem df_train ["Y"%string] w) = inr y_tr ->
  fst (getitem df_test input_vars w) = inr X_te ->
  fst (getitem df_test ["Y"%string] w) = inr y_te ->
  fst (lr_fit LinearRegression X_tr y_tr w) = inr lm ->
  fst (lr_score LinearRegression lm X_tr y_tr w) = inr r2_train ->
  fst (lr_score LinearRegression lm X_te y_te w) = inr r2_test ->
  intercept_ LinearRegression lm = b :: bs ->
  coef_ LinearRegression lm = row :: more ->
  (length input_vars <= length row)%nat ->
  test_model format_3f LinearRegression input_vars df_train df_test w =
  (inr tt,
   emit ("R^2 (train): " ++ format_3f r2_train ++ "; (test): "
         ++ format_3f r2_test ++ " => Y ~ " ++ format_3f b ++ " + "
         ++ String.concat " + "
              (map (fun cv => format_3f (fst cv) ++ " * " ++ snd cv)
                   (combine row input_vars)))%string w).
Proof.
  intros [Hfit Hscore] HXtr Hytr HXte Hyte Hlm Hr2tr Hr2te Hb Hrow Hlen.
  unfold test_model.
  rewrite bind_read_only by apply read_only_getitem. rewrite HXtr.
  rewrite bind_read_only by apply read_only_getitem. rewrite Hytr.
  rewrite bind_read_only by apply Hfit. rewrite Hlm.
  rewrite bind_read_only by apply read_only_getitem. rewrite HXtr.
  rewrite bind_read_only by apply read_only_getitem. rewrite Hytr.
  rewrite bind_read_only by apply Hscore. rewrite Hr2tr.
  rewrite bind_read_only by apply read_only_getitem. rewrite HXte.
  rewrite bind_read_only by apply read_only_getitem. rewrite Hyte.
  rewrite bind_read_only by apply Hscore. rewrite Hr2te.
  rewrite Hb, Hrow. unfold bind at 1. cbn [subscript nth_error ret].
  unfold bind at 1.
  rewrite (for_each_pure _
             (fun i => (format_3f (nth i row (S754_zero false)) ++ " * "
                        ++ nth i input_vars "")%string)).
  - rewrite (map_seq_combine
               (fun c v => (format_3f c ++ " * " ++ v)%string)
               row input_vars (S754_zero false) ""%string Hlen).
    reflexivity.
  - intros i Hi. apply in_seq in Hi.
    unfold bind at 1. cbn [subscript nth_error ret].
    unfold bind at 1. unfold subscript at 1.
    rewrite (nth_error_nth' row (S754_zero false)) by lia.
    unfold bind at 1. unfold subscript at 1.
    rewrite (nth_error_nth' input_vars ""%string) by lia.
    reflexivity.
Qed.

End TestModel.

(** * [eval_clf]: how much of the report is printed *)

Section EvalClf.
Context {R : RandomState} {Obj : Type}.
Variable format_3f : float64 -> string.
Variable mean_recall : list Z -> list Z -> float64.

(** X8. With an estimator whose [score] and [predict] are read-only,
    [eval_clf] changes nothing but the standard output, prints at most
    four lines, and returns normally exactly when it has printed all four:
    when it raises, an incomplete report of fewer than four lines is left
    behind. *)
Theorem eval_clf_report_length (clf : @estimator R Obj)
        (X_train y_train X_test y_test : ref) (w : world R Obj) :
  read_only_classifier clf ->
  let out := eval_clf format_3f mean_recall clf X_train y_train X_test y_test w in
  np_random (snd out) = np_random w /\
  os_reads (snd out) = os_reads w /\
  heap (snd out) = heap w /\
  exists lines,
    stdout (snd out) = stdout w ++ lines /\
    match fst out with
    | inr _ => length lines = 4%nat
    | inl _ => (length lines < 4)%nat
    end.
Proof.
  intros [Hsro Hpro] out. subst out.
  pose proof (fun y p => read_only_balanced_accuracy_score
                           (R:=R) (Obj:=Obj) mean_recall y p) as Hbro.
  assert (Hdone : forall (res : exn + unit) (ls : list string) (w' : world R Obj),
             np_random w' = np_random w -> os_reads w' = os_reads w ->
             heap w' = heap w -> stdout w' = stdout w ++ ls ->
             match res with
             | inr _ => length ls = 4%nat
             | inl _ => (length ls < 4)%nat
             end ->
             np_random (snd (res, w')) = np_random w /\
             os_reads (snd (res, w')) = os_reads w /\
             heap (snd (res, w')) = heap w /\
             exists lines,
               stdout (snd (res, w')) = stdout w ++ lines /\
               match fst (res, w') with
               | inr _ => length lines = 4%nat
               | inl _ => (length lines < 4)%nat
               end).
  { intros res ls w' Hg Ho Hh Hs Hl. repeat split; try assumption.
    exists ls. split; assumption. }
  unfold eval_clf.
  rewrite bind_read_only by apply Hsro.
  destruct (fst (est_score clf X_train y_train w)) as [e | s1].
  { apply (Hdone _ []); [reflexivity | reflexivity | reflexivity | | cbn; lia].
    symmetry. apply app_nil_r. }
  rewrite bind_print. set (w1 := emit _ w).
  rewrite bind_read_only by apply Hsro.
  destruct (fst (est_score clf X_test y_test w1)) as [e | s2].
  { eapply Hdone; [reflexivity | reflexivity | reflexivity | | ];
      [ subst w1; cbn [stdout emit]; reflexivity | cbn; lia ]. }
  rewrite bind_print. set (w2 := emit _ w1).
  rewrite bind_read_only by apply Hpro.
  destruct (fst (est_predict clf X_train w2)) as [e | p1].
  { eapply Hdone; [reflexivity | reflexivity | reflexivity | | ];
      [ subst w2 w1; cbn [stdout emit]; rewrite <- ?app_assoc; reflexivity
      | cbn; lia ]. }
  rewrite bind_read_only by apply Hbro.
  destruct (fst (balanced_accuracy_score mean_recall y_train p1 w2)) as [e | b1].
  { eapply Hdone; [reflexivity | reflexivity | reflexivity | | ];
      [ subst w2 w1; cbn [stdout emit]; rewrite <- ?app_assoc; reflexivity
      | cbn; lia ]. }
  rewrite bind_print. set (w3 := emit _ w2).
  rewrite bind_read_only by apply Hpro.
  destruct (fst (est_predict clf X_test w3)) as [e | p2].
  { eapply Hdone; [reflexivity | reflexivity | reflexivity | | ];
      [ subst w3 w2 w1; cbn [stdout emit]; rewrite <- ?app_assoc; reflexivity
      | cbn; lia ]. }
  rewrite bind_read_only by apply Hbro.
  destruct (fst (balanced_accuracy_score mean_recall y_test p2 w3)) as [e | b2].
  { eapply Hdone; [reflexivity | reflexivity | reflexivity | | ];
      [ subst w3 w2 w1; cbn [stdout emit]; rewrite <- ?app_assoc; reflexivity
      | cbn; lia ]. }
  unfold print.
  eapply Hdone; [reflexivity | reflexivity | reflexivity | | ];
    [ subst w3 w2 w1; cbn [stdout emit]; rewrite <- ?app_assoc; reflexivity
    | cbn; lia ].
Qed.

End EvalClf.

(** * The cells around the helpers *)

Section CellProperties.
Context {R : RandomState} {Obj : Type}.

Lemma failure_is_no_feature (columns : list string) :
  ~ In "failure"%string (feat_cols columns).
Proof.
  unfold feat_cols. intro H. apply filter_In in H. destruct H as [_ H].
  discriminate.
Qed.

Lemma read_only_dot_columns (df : ref) :
  read_only (R:=R) (Obj:=Obj) (dot_columns df).
Proof.
  unfold dot_columns. apply read_only_bind; [apply read_only_load |].
  intros [x | y | d | o]; first [apply read_only_ret | apply read_only_raise].
Qed.

Lemma dot_columns_frame (r : ref) (d : DataFrame) (w : world R Obj) :
  nth_error (heap w) r = Some (Frame d) ->
  dot_columns r w = (inr (df_columns d), w).
Proof. intro Hr. unfold dot_columns, bind, load. rewrite Hr. reflexivity. Qed.

(** X9. The cell that builds the features and the target of the drive
    notebook, run on a frame whose column labels are distinct: the selection
    of the SMART columns never raises (the names come from the frame
    itself) and takes pairwise distinct columns, the label column
    ["failure"] is never among the features, and the cell raises KeyError
    exactly when the frame has no column ["failure"].  When it returns,
    [X] and [y] have one entry for each row of the frame, [X] holds the
    columns whose name starts with ["smart"], in the frame's order, and [y]
    the column ["failure"]. *)
Theorem features_and_target_shape (df : ref) (d : DataFrame) (w : world R Obj) :
  nth_error (heap w) df = Some (Frame d) ->
  NoDup (df_columns d) ->
  ~ In "failure"%string (feat_cols (df_columns d)) /\
  exists idx,
    indices_of (feat_cols (df_columns d)) (df_columns d) = Some idx /\
    length idx = length (feat_cols (df_columns d)) /\
    NoDup idx /\
    match index_of "failure" (df_columns d) with
    | Some j =>
        let X := map (fun row => map (fun i => nth i row (S754_zero false)) idx)
                     (df_values d) in
        let y := map (fun row => nth j row (S754_zero false)) (df_values d) in
        features_and_target df w = (inr (X, y), w) /\
        length X = length (df_values d) /\
        length y = length (df_values d) /\
        Forall (fun row => length row = length (feat_cols (df_columns d))) X
    | None => features_and_target df w = (inl KeyError, w)
    end.
Proof.
  intros Hr Hnd. split; [apply failure_is_no_feature |].
  destruct (indices_of_filter (String.prefix "smart") (df_columns d))
    as (idx & Hidx & Hlen).
  fold (feat_cols (df_columns d)) in Hidx, Hlen.
  exists idx. split; [exact Hidx |]. split; [exact Hlen |].
  split.
  { apply (indices_of_distinct (feat_cols (df_columns d)) (df_columns d));
      [apply NoDup_filter, Hnd | exact Hidx]. }
  assert (Hrun : features_and_target df w =
                 match index_of "failure" (df_columns d) with
                 | Some j =>
                     (inr (map (fun row => map (fun i => nth i row (S754_zero false)) idx)
                               (df_values d),
                           map (fun row => nth j row (S754_zero false)) (df_values d)),
                      w)
                 | None => (inl KeyError, w)
                 end).
  { unfold features_and_target. unfold bind at 1.
    rewrite (dot_columns_frame df d w Hr).
    unfold bind at 1. rewrite (getitem_frame df _ d w Hr), Hidx.
    unfold bind at 1. rewrite (getitem_series_frame df _ d w Hr).
    destruct (index_of "failure" (df_columns d)); reflexivity. }
  destruct (index_of "failure" (df_columns d)) as [j |]; [| exact Hrun].
  cbv zeta. split; [exact Hrun |].
  rewrite !length_map. split; [reflexivity |]. split; [reflexivity |].
  apply Forall_forall. intros row Hrow. apply in_map_iff in Hrow.
  destruct Hrow as (row0 & <- & _). rewrite length_map. exact Hlen.
Qed.

Section Lasso.
Variable format_3f : float64 -> string.
Variable LassoLars : @lars R Obj.

(** X10. The cell that fits the regularized model, run on two tables that
    [sample_data] returned: its inputs are the eight columns C, A, K, X, F,
    D, G, H in this order, the label Y is never among them, and no column
    selection can fail.  When the fit and the two scores go through and the
    model has at least eight coefficients, the cell returns after printing
    one line with one term for each of the eight inputs, and changes
    nothing else. *)
Theorem lasso_cell_on_generated (seed seed' : option Z) (n n' : Z)
        (dd cd dd' cd' : bool) (w0 w0' w : world R Obj)
        (dtr dte : DataFrame) (df_train df_test : ref)
        (lm : lars_model LassoLars) (r2_train r2_test : float64) :
  read_only_lars LassoLars ->
  fst (sample_data seed n dd cd w0) = inr dtr ->
  fst (sample_data seed' n' dd' cd' w0') = inr dte ->
  nth_error (heap w) df_train = Some (Frame dtr) ->
  nth_error (heap w) df_test = Some (Frame dte) ->
  let inputs := [cC; cA; cK; cX; cF; cD; cG; cH] in
  let select d :=
    {| df_columns := map column_name inputs;
       df_values :=
         map (fun row => map (fun c => nth (position c) row (S754_zero false)) inputs)
             (df_values d) |} in
  fst (lars_fit LassoLars (select dtr) (column_values dtr cY) w) = inr lm ->
  fst (lars_score LassoLars lm (select dtr) (column_values dtr cY) w)
    = inr r2_train ->
  fst (lars_score LassoLars lm (select dte) (column_values dte cY) w)
    = inr r2_test ->
  (8 <= length (lars_coef_ LassoLars lm))%nat ->
  all_but_Y (df_columns dtr) = map column_name inputs /\
  lasso_cell format_3f LassoLars df_train df_test w =
  (inr tt,
   emit ("R^2 (train): " ++ format_3f r2_train ++ "; (test): "
         ++ format_3f r2_test ++ " => Y ~ "
         ++ format_3f (lars_intercept_ LassoLars lm) ++ " + "
         ++ String.concat " + "
              (map (fun cv => format_3f (fst cv) ++ " * " ++ snd cv)
                   (combine (lars_coef_ LassoLars lm) (map column_name inputs))))%string
        w).
Proof.
  intros [Hfit Hscore] Hdtr Hdte Hrtr Hrte inputs select Hlm Hr2tr Hr2te Hlen.
  apply sample_data_returns in Hdtr. destruct Hdtr as (_ & _ & _ & Hntr & _).
  apply sample_data_returns in Hdte. destruct Hdte as (_ & _ & _ & Hnte & _).
  assert (Hvars : all_but_Y (df_columns dtr) = map column_name inputs)
    by (rewrite Hntr; reflexivity).
  split; [exact Hvars |].
  assert (Hsel_tr : getitem df_train (map column_name inputs) w = (inr (select dtr), w))
    by (apply getitem_named_columns; assumption).
  assert (Hsel_te : getitem df_test (map column_name inputs) w = (inr (select dte), w))
    by (apply getitem_named_columns; assumption).
  assert (HY_tr : getitem_series df_train "Y" w = (inr (column_values dtr cY), w))
    by (rewrite (getitem_series_frame df_train _ dtr w Hrtr), Hntr; reflexivity).
  assert (HY_te : getitem_series df_test "Y" w = (inr (column_values dte cY), w))
    by (rewrite (getitem_series_frame df_test _ dte w Hrte), Hnte; reflexivity).
  unfold lasso_cell. unfold bind at 1.
  rewrite (dot_columns_frame df_train dtr w Hrtr). rewrite Hvars.
  unfold bind at 1. rewrite Hsel_tr.
  unfold bind at 1. rewrite HY_tr.
  rewrite bind_read_only by apply Hfit. rewrite Hlm.
  unfold bind at 1. rewrite Hsel_tr.
  unfold bind at 1. rewrite HY_tr.
  rewrite bind_read_only by apply Hscore. rewrite Hr2tr.
  unfold bind at 1. rewrite Hsel_te.
  unfold bind at 1. rewrite HY_te.
  rewrite bind_read_only by apply Hscore. rewrite Hr2te.
  unfold bind at 1.
  rewrite (for_each_pure _
             (fun i => (format_3f (nth i (lars_coef_ LassoLars lm) (S754_zero false))
                        ++ " * " ++ nth i (map column_name inputs) "")%string)).
  - rewrite (map_seq_combine
               (fun c v => (format_3f c ++ " * " ++ v)%string)
               (lars_coef_ LassoLars lm) (map column_name inputs)
               (S754_zero false) ""%string Hlen).
    reflexivity.
  - intros i Hi. apply in_seq in Hi.
    unfold bind at 1. unfold subscript at 1.
    rewrite (nth_error_nth' (lars_coef_ LassoLars lm) (S754_zero false))
      by (cbn in Hi; lia).
    unfold bind at 1. unfold subscript at 1.
    rewrite (nth_error_nth' (map column_name inputs) ""%string) by lia.
    reflexivity.
Qed.

End Lasso.

End CellProperties.

(** * Concrete runs of the cells *)

Lemma ZeroLars_read_only : read_only_lars (ZeroLars (R:=lcg)).
Proof.
  split.
  - intros X y w. cbn [lars_fit ZeroLars].
    destruct (length (df_values X) =? length y)%nat; reflexivity.
  - intros m X y w. reflexivity.
Qed.

(** Seeds 1 and 3 give the stand-in generator the same draws: row 1 of a
    two-row table is row 3 of a four-row table. *)
Lemma row_depends_on_its_draws_witness :
  nth 1 (df_values (generated_frame 1 2)) [] =
  nth 3 (df_values (generated_frame 3 4)) [].
Proof.
  apply (row_depends_on_its_draws (Some 1) (Some 3) 2 4 false false
           notebook0 notebook0 (generated_frame 1 2) (generated_frame 3 4)).
  - reflexivity.
  - reflexivity.
  - cbn. lia.
  - cbn. lia.
  - intro c. destruct c; reflexivity.
Defined.

Lemma getitem_generated_witness :
  getitem 0%nat (map column_name [cX; cK]) notebook1 =
  (inr {| df_columns := map column_name [cX; cK];
          df_values :=
            map (fun row => map (fun c => nth (position c) row (S754_zero false))
                                [cX; cK])
                (df_values (generated_frame 1 2)) |}, notebook1).
Proof.
  apply (getitem_generated (Some 1) 2 false false notebook0 notebook1
           (generated_frame 1 2) 0%nat [cX; cK]).
  - reflexivity.
  - reflexivity.
Defined.

Lemma test_model_missing_column_witness :
  test_model fixed_3f ZeroRegressor ["X"; "Z"]%string 0%nat 1%nat notebook1 =
  (inl KeyError, notebook1).
Proof.
  apply (test_model_missing_column fixed_3f ZeroRegressor ["X"; "Z"]%string
           0%nat 1%nat (generated_frame 1 2) notebook1).
  - reflexivity.
  - exists "Z"%string. split.
    + cbn. tauto.
    + vm_compute. intuition discriminate.
Defined.

Lemma test_model_one_line_or_nothing_witness :
  (exists e, test_model fixed_3f ZeroRegressor ["X"; "K"]%string 0%nat 1%nat
                        notebook1 = (inl e, notebook1)) \/
  (exists line, test_model fixed_3f ZeroRegressor ["X"; "K"]%string 0%nat 1%nat
                           notebook1 = (inr tt, emit line notebook1)).
Proof.
  apply (test_model_one_line_or_nothing fixed_3f ZeroRegressor
           ["X"; "K"]%string 0%nat 1%nat notebook1).
  apply ZeroRegressor_read_only.
Defined.

Lemma test_model_report_witness :
  test_model fixed_3f ZeroRegressor ["X"; "K"]%string 0%nat 1%nat notebook1 =
  (inr tt,
   emit "R^2 (train): 0.000; (test): 0.000 => Y ~ 0.000 + 0.000 * X + 0.000 * K"
        notebook1).
Proof.
  apply (test_model_report fixed_3f ZeroRegressor ["X"; "K"]%string
           0%nat 1%nat notebook1
           (take_columns ["X"; "K"]%string [3; 2]%nat (generated_frame 1 2))
           (take_columns ["Y"]%string [7]%nat (generated_frame 1 2))
           (take_columns ["X"; "K"]%string [3; 2]%nat (generated_frame 2 3))
           (take_columns ["Y"]%string [7]%nat (generated_frame 2 3))
           [S754_zero false; S754_zero false]
           (S754_zero false) (S754_zero false) (S754_zero false)
           [] [S754_zero false; S754_zero false] []).
  - apply ZeroRegressor_read_only.
  - reflexivity.
  - reflexivity.
  - reflexivity.
  - reflexivity.
  - reflexivity.
  - reflexivity.
  - reflexivity.
  - reflexivity.
  - reflexivity.
  - cbn. lia.
Defined.

Lemma eval_clf_report_length_witness :
  let out := eval_clf fixed_3f per_class_recall_mean (DummyClassifier 0%nat)
                      1%nat 2%nat 1%nat 3%nat notebook0 in
  np_random (snd out) = np_random notebook0 /\
  os_reads (snd out) = os_reads notebook0 /\
  heap (snd out) = heap notebook0 /\
  exists lines,
    stdout (snd out) = stdout notebook0 ++ lines /\
    match fst out with
    | inr _ => length lines = 4%nat
    | inl _ => (length lines < 4)%nat
    end.
Proof.
  apply (eval_clf_report_length fixed_3f per_class_recall_mean
           (DummyClassifier 0%nat) 1%nat 2%nat 1%nat 3%nat notebook0).
  apply DummyClassifier_read_only.
Defined.

(** The drive table has columns serial, smart_5, failure, smart_187: the
    features are its second and fourth column, the target its third. *)
Lemma features_and_target_shape_witness :
  features_and_target 2%nat notebook1 =
  (inr ([[f2; f3]; [f0_5; f0_1]], [S754_zero false; f1_0]), notebook1).
Proof.
  assert (Hnd : NoDup (df_columns drive_frame)).
  { cbn. repeat constructor; cbn; intuition discriminate. }
  destruct (features_and_target_shape 2%nat drive_frame notebook1 eq_refl Hnd)
    as (_ & idx & Hidx & _ & _ & H).
  vm_compute in Hidx. injection Hidx as <-.
  cbn [index_of drive_frame df_columns String.eqb Ascii.eqb Bool.eqb option_map] in H.
  destruct H as [H _]. rewrite H. reflexivity.
Defined.

Lemma lasso_cell_on_generated_witness :
  lasso_cell fixed_3f ZeroLars 0%nat 1%nat notebook1 =
  (inr tt,
   emit ("R^2 (train): 0.000; (test): 0.000 => Y ~ 0.000 + 0.000 * C"
         ++ " + 0.000 * A + 0.000 * K + 0.000 * X + 0.000 * F + 0.000 * D"
         ++ " + 0.000 * G + 0.000 * H")%string
        notebook1).
Proof.
  apply (lasso_cell_on_generated fixed_3f ZeroLars (Some 1) (Some 2) 2 3
           false false false false notebook0 notebook0 notebook1
           (generated_frame 1 2) (generated_frame 2 3) 0%nat 1%nat
           (repeat (S754_zero false) 8) (S754_zero false) (S754_zero false)).
  - apply ZeroLars_read_only.
  - reflexivity.
  - reflexivity.
  - reflexivity.
  - reflexivity.
  - reflexivity.
  - reflexivity.
  - reflexivity.
  - cbn. lia.
Defined.
